(** * Binary classification notebook: label derivation, splits, k-NN evaluation

    Shallow embedding of [notebooks/binary_classification_ML.ipynb].

    The notebook is a sequence of cells that call numpy, pandas and
    scikit-learn.  The cells are translated line by line; the library calls
    they make are given by their documented behaviour on the values the
    notebook passes ([np], [pd], [sklearn] below).  Python exceptions are the
    [Raise] branch of [result]; binary64 numbers are modelled by exact
    rationals.

    Operations of the specification and the cells they name:
    [deriveLabels] is [df_all_found] (with [df_missed] beside it),
    [makeSplit] is [train_test_split], [fit], [predict] and
    [predictProbability] are [fit], [predict] and the second component of
    [predict_and_probability], [evaluate] is [evaluate]. *)

From Stdlib Require Import List ZArith QArith Qround Bool Arith Lia Lqa.
From Stdlib Require Import Permutation Sorting.Sorted.
From Stdlib Require PrimFloat FloatOps SpecFloat.
Import ListNotations.

(** ** Python exceptions *)

Inductive exn : Type :=
| ValueError
| IndexError
| LinAlgError
| OverflowError.

Inductive result (A : Type) : Type :=
| Ok (a : A)
| Raise (e : exn).

Arguments Ok {A} a.
Arguments Raise {A} e.

Definition bind {A B : Type} (m : result A) (k : A -> result B) : result B :=
  match m with
  | Ok a => k a
  | Raise e => Raise e
  end.

Notation "x <- m ;; k" := (bind m (fun x => k))
  (at level 61, m at next level, right associativity).
Notation "' pat <- m ;; k" := (bind m (fun x => match x with pat => k end))
  (at level 61, pat pattern, m at next level, right associativity).

Fixpoint mapM {A B : Type} (f : A -> result B) (l : list A) : result (list B) :=
  match l with
  | [] => Ok []
  | a :: l' => b <- f a ;; bs <- mapM f l' ;; Ok (b :: bs)
  end.

(** ** numpy *)

Module np.

(** [np.in1d(ar1, ar2)]: one boolean per element of [ar1], in order. *)
Definition in1d (ar1 ar2 : list Z) : list bool :=
  map (fun a => existsb (Z.eqb a) ar2) ar1.

(** [~mask] and [np.logical_not] on a boolean array. *)
Definition logical_not (a : list bool) : list bool := map negb a.

(** [np.logical_xor(a, b)] on one-dimensional boolean arrays: elementwise
    for equal lengths, a length-one operand is broadcast, any other pair
    of lengths does not broadcast. *)
Definition logical_xor (a b : list bool) : result (list bool) :=
  if Nat.eqb (length a) (length b) then Ok (map (fun p => xorb (fst p) (snd p)) (combine a b))
  else match a, b with
       | [x], _ => Ok (map (xorb x) b)
       | _, [y] => Ok (map (fun x => xorb x y) a)
       | _, _ => Raise ValueError
       end.

(** [np.sum] of a boolean array: the number of [True] entries. *)
Fixpoint sum (a : list bool) : Z :=
  match a with
  | [] => 0
  | b :: a' => (if b then 1 else 0) + sum a'
  end.

(** [mask.nonzero()[0]]: the positions that hold [True], ascending. *)
Fixpoint nonzero_from (i : nat) (mask : list bool) : list nat :=
  match mask with
  | [] => []
  | b :: mask' => if b then i :: nonzero_from (S i) mask' else nonzero_from (S i) mask'
  end.

Definition nonzero (mask : list bool) : list nat := nonzero_from 0 mask.

(** [a[positions]] (integer-array indexing, [take]); a position past the
    end raises. *)
Definition take {R : Type} (rows : list R) (positions : list nat) : result (list R) :=
  mapM (fun i => match nth_error rows i with
                 | Some r => Ok r
                 | None => Raise IndexError
                 end) positions.

(** [M.T[j]] for a two-dimensional array [M] with [ncols] columns: row [j]
    of the transpose, that is column [j] of [M]. *)
Definition T_index (ncols : nat) (M : list (list Q)) (j : nat) : result (list Q) :=
  if Nat.ltb j ncols then Ok (map (fun row => nth j row 0) M) else Raise IndexError.

(** Values a quotient [a / b] of a non-negative binary64 [a] by an integer
    [b] can take: a finite number, or what numpy returns (with a warning,
    not an exception) when [b] is zero. *)
Inductive float : Type :=
| Fin (q : Q)
| Inf
| NaN.

Definition true_divide (a : Q) (b : Z) : float :=
  if Z.eqb b 0 then (if Qeq_bool a 0 then NaN else Inf)
  else Fin (a / inject_Z b).

(** The same arithmetic on binary64 numbers, for integers below [2^53]
    (which convert without rounding). *)
Fixpoint float64_of_pos (p : positive) : PrimFloat.float :=
  match p with
  | xH => PrimFloat.one
  | xO p' => PrimFloat.mul PrimFloat.two (float64_of_pos p')
  | xI p' => PrimFloat.add (PrimFloat.mul PrimFloat.two (float64_of_pos p')) PrimFloat.one
  end.

Definition float64 (z : Z) : PrimFloat.float :=
  match z with
  | Z0 => PrimFloat.zero
  | Zpos p => float64_of_pos p
  | Zneg p => PrimFloat.opp (float64_of_pos p)
  end.

Definition percentage64 (count total : Z) : PrimFloat.float :=
  PrimFloat.div (PrimFloat.mul (float64 100) (float64 count)) (float64 total).

(** The binary64 number a decimal literal stands for, the literal given as
    a fraction of integers below [2^53]: the fraction rounded to nearest,
    as the correctly rounded quotient.  [literal64 (1 # 10)] is Python's
    [0.1]. *)
Definition literal64 (q : Q) : PrimFloat.float :=
  PrimFloat.div (float64 (Qnum q)) (float64 (Z.pos (Qden q))).

End np.

(** ** The [math] module *)

Module math.

(** The rational a finite binary64 number with sign [s], mantissa [m] and
    exponent [e] stands for: [m * 2^e] with the sign, a fraction over a
    power of two when [e] is negative. *)
Definition finite_value (s : bool) (m : positive) (e : Z) : Q :=
  let signed := if s then Z.neg m else Z.pos m in
  match e with
  | Z0 => inject_Z signed
  | Z.pos p => inject_Z (Z.shiftl signed (Z.pos p))
  | Z.neg p => Qmake signed (Pos.shiftl 1 (N.pos p))
  end.


(** [math.ceil(x)]: the least integer not below [x]; [ValueError] for a
    NaN and [OverflowError] for an infinity. *)
Definition ceil (x : PrimFloat.float) : result Z :=
  match FloatOps.Prim2SF x with
  | SpecFloat.S754_zero _ => Ok 0%Z
  | SpecFloat.S754_finite s m e => Ok (Qceiling (finite_value s m e))
  | SpecFloat.S754_infinity _ => Raise OverflowError
  | SpecFloat.S754_nan => Raise ValueError
  end.

End math.

(** ** pandas *)

Module pd.

(** [df.loc[mask, cols]] with a boolean array [mask]: the mask must be as
    long as the frame; the rows at the [True] positions are kept, in
    order, and each is restricted to [cols]. *)
Definition loc_mask {R S : Type} (rows : list R) (mask : list bool) (cols : R -> S)
  : result (list S) :=
  if Nat.eqb (length mask) (length rows)
  then sel <- np.take rows (np.nonzero mask) ;; Ok (map cols sel)
  else Raise IndexError.

(** [df.loc[:, cols]]: every row, restricted to [cols]. *)
Definition loc_all {R S : Type} (rows : list R) (cols : R -> S) : list S :=
  map cols rows.

(** [df.assign(name=values)] with an array: the array must be as long as
    the frame and is attached positionally. *)
Definition assign {R V : Type} (rows : list R) (values : list V) : result (list (R * V)) :=
  if Nat.eqb (length values) (length rows)
  then Ok (combine rows values)
  else Raise ValueError.

End pd.

(** ** The injection tables (cells at lines 77-127 and 213-215) *)

(** A row of the pickled tables, with the columns the notebook reads. *)
Record Injection : Type := {
  stamp_id : Z;
  stamp_mag : Q;
  lmt_mag : Q;
  surface_brightness : Q;
  seeing : Q;
  medsky : Q
}.

(** A row restricted to [relevant_cols]. *)
Record Relevant : Type := {
  r_stamp_mag : Q;
  r_lmt_mag : Q;
  r_surface_brightness : Q;
  r_seeing : Q;
  r_medsky : Q
}.

Definition relevant_cols (r : Injection) : Relevant :=
  {| r_stamp_mag := stamp_mag r;
     r_lmt_mag := lmt_mag r;
     r_surface_brightness := surface_brightness r;
     r_seeing := seeing r;
     r_medsky := medsky r |}.

Definition stamp_ids (df : list Injection) : list Z := map stamp_id df.

Section Tables.

Variables df_all_complete df_found_complete : list Injection.

Definition df_all : list Relevant := pd.loc_all df_all_complete relevant_cols.

Definition df_found : list Relevant := pd.loc_all df_found_complete relevant_cols.

Definition found_mask : list bool :=
  np.in1d (stamp_ids df_all_complete) (stamp_ids df_found_complete).

Definition df_missed : result (list Relevant) :=
  pd.loc_mask df_all_complete (np.logical_not found_mask) relevant_cols.

(** [df_all = df_all.assign(found=np.in1d(...))] *)
Definition df_all_found : result (list (Relevant * bool)) :=
  pd.assign df_all found_mask.

End Tables.

(** ** scikit-learn *)

Module sklearn.

(** *** Random state

    [np.random.RandomState(seed)] and the process-wide generator behind
    [np.random] are values of [rng_state]; [permutation] is
    [rng.permutation(n)], which returns a shuffled [range(n)] and advances
    the generator.  The Mersenne Twister itself is not part of the
    notebook and is left as an interface.  The seeds the notebook passes are
    those of [range(10)] and [range(5)]. *)
Class RandomState : Type := {
  rng_state : Type;
  seed : Z -> rng_state;
  permutation : rng_state -> nat -> list nat * rng_state;
  permutation_perm : forall s n, Permutation (fst (permutation s n)) (seq 0 n)
}.

(** *** [train_test_split(features, targets, test_size=f, random_state=rs)]

    The shuffle split as in scikit-learn 0.19 and 0.20, the releases current
    when the notebook was written: [n_test = ceil(f * n)],
    [n_train = n - n_test], the first [n_test] entries of one permutation of
    [range(n)] index the test rows and the next [n_train] the training rows.
    (Releases from 0.21 on also refuse a split whose training part would be
    empty.)  [random_state=None] draws the permutation from the process-wide
    generator [g] and advances it; an integer seeds a fresh generator and
    leaves [g] alone.

    The library multiplies in binary64 and takes the ceiling of the rounded
    product: [train_test_split64] below.  [train_test_split] takes the
    fraction as a rational and the ceiling of the exact product; it is
    used for the notebook's [test_size = 0.1], written [1 # 10], where the
    two agree (for tables of 2 to 20000 rows: [train_test_split64_tenth]).
    For other fractions they can differ by a row. *)
Section Split.

Context {RS : RandomState}.

(** [ceil(test_size * n)] for a rational [test_size]. *)
Definition n_test_of (test_size : Q) (n : nat) : nat :=
  Z.to_nat (Qceiling (test_size * inject_Z (Z.of_nat n))).

Definition draw_permutation (random_state : option Z) (g : rng_state) (n : nat)
  : list nat * rng_state :=
  match random_state with
  | None => permutation g n
  | Some s => (fst (permutation (seed s) n), g)
  end.

Definition shuffle_split (test_size : Q) (random_state : option Z) (g : rng_state) (n : nat)
  : (list nat * list nat) * rng_state :=
  let n_test := n_test_of test_size n in
  let n_train := (n - n_test)%nat in
  let (perm, g') := draw_permutation random_state g n in
  let ind_test := firstn n_test perm in
  let ind_train := firstn n_train (skipn n_test perm) in
  ((ind_train, ind_test), g').

Definition train_test_split {A B : Type} (features : list A) (targets : list B)
    (test_size : Q) (random_state : option Z) (g : rng_state)
  : result ((list A * list A * list B * list B) * rng_state) :=
  if negb (Nat.eqb (length features) (length targets)) then Raise ValueError
  else if Qle_bool test_size 0 || Qle_bool 1 test_size then Raise ValueError
  else
    let '((ind_train, ind_test), g') :=
      shuffle_split test_size random_state g (length features) in
    X_train <- np.take features ind_train ;;
    X_test <- np.take features ind_test ;;
    y_train <- np.take targets ind_train ;;
    y_test <- np.take targets ind_test ;;
    Ok ((X_train, X_test, y_train, y_test), g').

(** The positions of a split with [n_test] test rows. *)
Definition split_at (n_test : nat) (random_state : option Z) (g : rng_state) (n : nat)
  : (list nat * list nat) * rng_state :=
  let n_train := (n - n_test)%nat in
  let (perm, g') := draw_permutation random_state g n in
  let ind_test := firstn n_test perm in
  let ind_train := firstn n_train (skipn n_test perm) in
  ((ind_train, ind_test), g').

(** [n_test = ceil(test_size * n_samples)] on binary64 numbers. *)
Definition n_test64 (test_size : PrimFloat.float) (n : nat) : result nat :=
  c <- math.ceil (PrimFloat.mul test_size (np.float64 (Z.of_nat n))) ;;
  Ok (Z.to_nat c).

(** The split on a binary64 [test_size].  [strict] is [true] for the
    releases from 0.21 on, which raise [ValueError] when no row would be
    left for training, and [false] for 0.19 and 0.20. *)
Definition train_test_split64 {A B : Type} (strict : bool) (features : list A)
    (targets : list B) (test_size : PrimFloat.float) (random_state : option Z)
    (g : rng_state)
  : result ((list A * list A * list B * list B) * rng_state) :=
  if negb (Nat.eqb (length features) (length targets)) then Raise ValueError
  else if PrimFloat.leb test_size PrimFloat.zero || PrimFloat.leb PrimFloat.one test_size
  then Raise ValueError
  else
    n_test <- n_test64 test_size (length features) ;;
    if strict && Nat.eqb (length features - n_test) 0 then Raise ValueError
    else
      let '((ind_train, ind_test), g') :=
        split_at n_test random_state g (length features) in
      X_train <- np.take features ind_train ;;
      X_test <- np.take features ind_test ;;
      y_train <- np.take targets ind_train ;;
      y_test <- np.take targets ind_test ;;
      Ok ((X_train, X_test, y_train, y_test), g').

End Split.

(** *** [KNeighborsClassifier] *)

Inductive Metric : Type :=
| Euclidean
| Mahalanobis (VI : list (list Q)).

(** The estimator as constructed, before [fit]. *)
Record KNeighborsClassifier : Type := {
  n_neighbors : Z;
  metric : Metric
}.

(** The estimator after [fit]: the training rows, their labels and the
    sorted distinct labels ([classes_]). *)
Record Fitted : Type := {
  params : KNeighborsClassifier;
  fit_X : list (list Q);
  fit_y : list bool;
  classes_ : list bool
}.

Definition sub_vec (x q : list Q) : list Q :=
  map (fun p => fst p - snd p) (combine x q).

Definition dot (u v : list Q) : Q :=
  fold_right Qplus 0 (map (fun p => fst p * snd p) (combine u v)).

Definition mat_vec (M : list (list Q)) (v : list Q) : list Q :=
  map (fun row => dot row v) M.

(** Squared distance.  The library orders neighbours by the square root of
    this number, which orders them the same way. *)
Definition dist2 (m : Metric) (x q : list Q) : Q :=
  let d := sub_vec x q in
  match m with
  | Euclidean => dot d d
  | Mahalanobis VI => dot d (mat_vec VI d)
  end.

(** [nbrs] are [k] nearest rows of [X] to [q]: [k] distinct positions of
    [X], none farther from [q] than a position left out.  Which of several
    equidistant rows is taken is not fixed. *)
Definition k_nearest (m : Metric) (X : list (list Q)) (q : list Q) (k : nat)
    (nbrs : list nat) : Prop :=
  length nbrs = k /\
  NoDup nbrs /\
  (forall i, In i nbrs -> (i < length X)%nat) /\
  (forall i j, In i nbrs -> (j < length X)%nat -> ~ In j nbrs ->
               dist2 m (nth i X []) q <= dist2 m (nth j X []) q).

(** The squared Euclidean distances of the brute-force search, as the
    library computes them on binary64 numbers: [-2 x.y + x.x + y.y],
    negative results raised to zero ([euclidean_distances], called with the
    query as [x] and a training row as [y]). *)
Definition dot64 (x y : list PrimFloat.float) : PrimFloat.float :=
  fold_left (fun acc ab => PrimFloat.add acc (PrimFloat.mul (fst ab) (snd ab)))
            (combine x y) PrimFloat.zero.

Definition euclidean_distances64 (x y : list PrimFloat.float) : PrimFloat.float :=
  let distances := PrimFloat.mul (dot64 x y) (np.float64 (-2)) in
  let distances := PrimFloat.add distances (dot64 x x) in
  let distances := PrimFloat.add distances (dot64 y y) in
  if PrimFloat.ltb distances PrimFloat.zero then PrimFloat.zero else distances.

(** [nbrs] are [k] distinct positions of [X]. *)
Definition selected (X : list (list Q)) (k : nat) (nbrs : list nat) : Prop :=
  length nbrs = k /\
  NoDup nbrs /\
  (forall i, In i nbrs -> (i < length X)%nat).

(** The library ranks the training rows by distances computed in binary64
    (the brute-force search as [x.x - 2 x.y + y.y], the trees as the sum of
    the squared differences), and a binary64 distance can differ from the
    distance of the stored numbers: of rows [[100000005]] and [[100000004]]
    both come out at distance 0 from the query [[100000004]].  On whole
    numbers of magnitude at most 1024 in rows of at most 1024 columns every
    product, difference and partial sum of either computation is a whole
    number below 2^53 and is computed without rounding, so there the
    binary64 ranking is the ranking by [dist2]. *)
Definition small_int (c : Q) : bool :=
  Qeq_bool c (inject_Z (Qfloor c)) && (Z.abs (Qfloor c) <=? 1024)%Z.

Definition exact_rows (X : list (list Q)) (q : list Q) : bool :=
  (length q <=? 1024)%nat && forallb small_int q &&
  forallb (fun x => (length x =? length q)%nat && forallb small_int x) X.

(** The neighbour search behind [kneighbors] (brute force, k-d tree or
    ball tree, chosen by the library).  It returns [k] distinct training
    rows for every metric; that they are nearest rows under [dist2] is
    known for the Euclidean metric on inputs where the binary64 distances
    are exact. *)
Class NeighborSearch : Type := {
  neigh_ind : Metric -> list (list Q) -> nat -> list Q -> list nat;
  neigh_ind_rows : forall m X k q,
    (k <= length X)%nat -> selected X k (neigh_ind m X k q);
  neigh_ind_nearest : forall X k q,
    (k <= length X)%nat -> exact_rows X q = true ->
    k_nearest Euclidean X q k (neigh_ind Euclidean X k q)
}.

(** [np.unique] of a boolean label array. *)
Definition unique (y : list bool) : list bool :=
  (if existsb negb y then [false] else []) ++ (if existsb (fun b => b) y then [true] else []).

(** [KNC.fit(X, y)] *)
Definition fit (KNC : KNeighborsClassifier) (X : list (list Q)) (y : list bool)
  : result Fitted :=
  if negb (Nat.eqb (length X) (length y)) then Raise ValueError
  else if Nat.eqb (length X) 0 then Raise ValueError
  else if (n_neighbors KNC <=? 0)%Z then Raise ValueError
  else Ok {| params := KNC; fit_X := X; fit_y := y; classes_ := unique y |}.

Section Predict.

Context {NS : NeighborSearch}.

(** [KNC.kneighbors(X)], indices only. *)
Definition kneighbors (KNC : Fitted) (X : list (list Q)) : result (list (list nat)) :=
  if Nat.eqb (length X) 0 then Raise ValueError
  else if (Z.of_nat (length (fit_X KNC)) <? n_neighbors (params KNC))%Z then Raise ValueError
  else Ok (map (neigh_ind (metric (params KNC)) (fit_X KNC)
                          (Z.to_nat (n_neighbors (params KNC)))) X).

(** Labels of the neighbours of one query. *)
Definition neighbor_labels (KNC : Fitted) (nbrs : list nat) : list bool :=
  map (fun i => nth i (fit_y KNC) false) nbrs.

(** Votes per class, in the order of [classes_]. *)
Definition votes (KNC : Fitted) (nbrs : list nat) : list nat :=
  map (fun c => count_occ bool_dec (neighbor_labels KNC nbrs) c) (classes_ KNC).

(** Position of the largest count, the first one among equals. *)
Fixpoint argmax_from (best_i best i : nat) (l : list nat) : nat :=
  match l with
  | [] => best_i
  | c :: l' => if Nat.ltb best c then argmax_from i c (S i) l'
               else argmax_from best_i best (S i) l'
  end.

Definition mode (counts : list nat) : nat :=
  match counts with
  | [] => 0%nat
  | c :: l => argmax_from 0 c 1 l
  end.

(** [KNC.predict(X)]: the class with most votes among the neighbours. *)
Definition predict (KNC : Fitted) (X : list (list Q)) : result (list bool) :=
  ind <- kneighbors KNC X ;;
  Ok (map (fun nbrs => nth (mode (votes KNC nbrs)) (classes_ KNC) false) ind).

(** [KNC.predict_proba(X)]: one row per query, one column per class, the
    votes divided by their sum. *)
Definition predict_proba (KNC : Fitted) (X : list (list Q)) : result (list (list Q)) :=
  ind <- kneighbors KNC X ;;
  Ok (map (fun nbrs =>
             let v := votes KNC nbrs in
             let normalizer := fold_right Nat.add 0%nat v in
             let normalizer := if Nat.eqb normalizer 0 then 1%nat else normalizer in
             map (fun c => inject_Z (Z.of_nat c) / inject_Z (Z.of_nat normalizer)) v)
          ind).

End Predict.

End sklearn.

(** ** Covariance and matrix inverse

    [DataFrame.cov()] and [np.linalg.inv] are binary64 routines of pandas and
    LAPACK; the notebook only passes the result of the first to the second
    and the result of the second to the classifier.  [linalg_inv] may raise
    [LinAlgError]. *)
Class Numerics : Type := {
  DataFrame_cov : list (list Q) -> list (list Q);
  linalg_inv : list (list Q) -> result (list (list Q))
}.

(** ** The classification cells (lines 289-551) *)

Import sklearn.

(** [num_neighbors = 9] *)
Definition num_neighbors : Z := 9.

(** [df_all[['stamp_mag', 'lmt_mag', 'surface_brightness', 'seeing']].values] *)
Definition four_features (df : list (Relevant * bool)) : list (list Q) :=
  map (fun r => [r_stamp_mag (fst r); r_lmt_mag (fst r);
                 r_surface_brightness (fst r); r_seeing (fst r)]) df.

(** [df_all[correlated_parameters]] with
    [correlated_parameters = ['stamp_mag', 'lmt_mag', 'medsky']] *)
Definition correlated_parameters (df : list (Relevant * bool)) : list (list Q) :=
  map (fun r => [r_stamp_mag (fst r); r_lmt_mag (fst r); r_medsky (fst r)]) df.

(** [df_all['found'].values] *)
Definition found (df : list (Relevant * bool)) : list bool := map snd df.

(** What one pass of a trial loop prints. *)
Record EvaluationResult : Type := {
  correct : Z;
  incorrect : Z;
  percentage_correct : np.float;
  percentage_incorrect : np.float
}.

Section Cells.

Context {RS : RandomState} {NS : NeighborSearch} {NU : Numerics}.

(** Line 342:
    [KNC.predict([[...]]), KNC.predict_proba([[...]]).T[1]] *)
Definition predict_and_probability (KNC : Fitted) (x : list Q)
  : result (list bool * list Q) :=
  p <- predict KNC [x] ;;
  proba <- predict_proba KNC [x] ;;
  proba_found <- np.T_index (length (classes_ KNC)) proba 1 ;;
  Ok (p, proba_found).

(** Line 381: the split drawn for the histogram, without [random_state]. *)
Definition example_split (features : list (list Q)) (targets : list bool) (g : rng_state)
  : result ((list (list Q) * list (list Q) * list bool * list bool) * rng_state) :=
  train_test_split features targets (1 # 10) None g.

(** Lines 396-397, 494-495, 533-534: the split of trial [ii]. *)
Definition trial_split (features : list (list Q)) (targets : list bool) (ii : Z)
    (g : rng_state)
  : result ((list (list Q) * list (list Q) * list bool * list bool) * rng_state) :=
  train_test_split features targets (1 # 10) (Some ii) g.

(** Lines 400-407 (and 502-509, 537-544): predict the test rows and tally. *)
Definition evaluate (KNC : Fitted) (X_test : list (list Q)) (y_test : list bool)
  : result EvaluationResult :=
  KNC_predict <- predict KNC X_test ;;
  incorrect <- np.logical_xor KNC_predict y_test ;;
  let correct := np.logical_not incorrect in
  let incorrect := np.sum incorrect in
  let correct := np.sum correct in
  let percentage_correct :=
    np.true_divide (100 * inject_Z correct) (correct + incorrect) in
  let percentage_incorrect :=
    np.true_divide (100 * inject_Z incorrect) (correct + incorrect) in
  Ok {| correct := correct;
        incorrect := incorrect;
        percentage_correct := percentage_correct;
        percentage_incorrect := percentage_incorrect |}.

(** Lines 398-399 and 535-536: a Euclidean classifier on the training rows. *)
Definition euclidean_fit (X_train : list (list Q)) (y_train : list bool) : result Fitted :=
  fit {| n_neighbors := num_neighbors; metric := Euclidean |} X_train y_train.

(** Lines 496-501: covariance of the training rows, its inverse, and a
    Mahalanobis classifier on the training rows. *)
Definition mahalanobis_fit (X_train : list (list Q)) (y_train : list bool) : result Fitted :=
  let cov := DataFrame_cov X_train in
  inv_cov <- linalg_inv cov ;;
  fit {| n_neighbors := num_neighbors; metric := Mahalanobis inv_cov |} X_train y_train.

(** One pass of a trial loop: split with [random_state=ii], fit, evaluate. *)
Definition trial (fit_train : list (list Q) -> list bool -> result Fitted)
    (features : list (list Q)) (targets : list bool) (ii : Z) (g : rng_state)
  : result ((Fitted * EvaluationResult) * rng_state) :=
  '((X_train, X_test, y_train, y_test), g') <- trial_split features targets ii g ;;
  KNC <- fit_train X_train y_train ;;
  r <- evaluate KNC X_test y_test ;;
  Ok ((KNC, r), g').

Definition euclidean_trial := trial euclidean_fit.

Definition mahalanobis_trial := trial mahalanobis_fit.

(** [for ii in range(n): ...]; an exception in one pass ends the loop. *)
Fixpoint for_each {R : Type} (body : Z -> rng_state -> result (R * rng_state))
    (iis : list Z) (g : rng_state) : result (list R * rng_state) :=
  match iis with
  | [] => Ok ([], g)
  | ii :: rest =>
      '(r, g') <- body ii g ;;
      '(rs, g'') <- for_each body rest g' ;;
      Ok (r :: rs, g'')
  end.

Definition range (n : nat) : list Z := map Z.of_nat (seq 0 n).

(** Lines 395-414 and 532-551. *)
Definition euclidean_loop (features : list (list Q)) (targets : list bool) (g : rng_state) :=
  for_each (euclidean_trial features targets) (range 10) g.

(** Lines 493-516. *)
Definition mahalanobis_loop (features : list (list Q)) (targets : list bool) (g : rng_state) :=
  for_each (mahalanobis_trial features targets) (range 5) g.

(** Lines 300-319: the first classifier, fitted on every row. *)
Definition fit_all (df : list (Relevant * bool)) : result Fitted :=
  euclidean_fit (four_features df) (found df).

(** From the pickled tables to the printed results of the three loops. *)
Definition run_four_features (df_all_complete df_found_complete : list Injection)
    (g : rng_state) :=
  df <- df_all_found df_all_complete df_found_complete ;;
  euclidean_loop (four_features df) (found df) g.

Definition run_mahalanobis (df_all_complete df_found_complete : list Injection)
    (g : rng_state) :=
  df <- df_all_found df_all_complete df_found_complete ;;
  mahalanobis_loop (correlated_parameters df) (found df) g.

Definition run_correlated (df_all_complete df_found_complete : list Injection)
    (g : rng_state) :=
  df <- df_all_found df_all_complete df_found_complete ;;
  euclidean_loop (correlated_parameters df) (found df) g.

End Cells.

(** ** Executable instances of the interfaces

    A generator, a brute-force neighbour search and exact linear algebra
    with which the cells above can be run on concrete tables. *)

Module Reference.

(** A generator whose [n]-th permutation of [range(m)] is the rotation by
    [n mod m]. *)
Definition rotate (s : nat) (l : list nat) : list nat :=
  skipn (s mod length l) l ++ firstn (s mod length l) l.

Definition rotating_permutation (s : nat) (n : nat) : list nat * nat :=
  (rotate s (seq 0 n), S s).

(** Brute force: order the training positions by distance to the query,
    equidistant positions by position, and keep the first [k]. *)
Fixpoint insert_by (d : nat -> Q) (i : nat) (l : list nat) : list nat :=
  match l with
  | [] => [i]
  | j :: l' => if Qle_bool (d i) (d j) then i :: j :: l' else j :: insert_by d i l'
  end.

Definition sort_by (d : nat -> Q) (l : list nat) : list nat :=
  fold_right (insert_by d) [] l.

Definition le_by (d : nat -> Q) (i j : nat) : Prop := d i <= d j.

Definition brute_force (m : Metric) (X : list (list Q)) (k : nat) (q : list Q) : list nat :=
  firstn k (sort_by (fun i => dist2 m (nth i X []) q) (seq 0 (length X))).

(** The same search with equidistant positions in the opposite order. *)
Definition brute_force_rev (m : Metric) (X : list (list Q)) (k : nat) (q : list Q) : list nat :=
  firstn k (sort_by (fun i => dist2 m (nth i X []) q) (rev (seq 0 (length X)))).

(** Sample covariance of the columns, normalised by [n - 1]. *)
Definition column (j : nat) (X : list (list Q)) : list Q :=
  map (fun row => nth j row 0) X.

Definition total (v : list Q) : Q := fold_right Qplus 0 v.

Definition mean (v : list Q) : Q := total v / inject_Z (Z.of_nat (length v)).

Definition centered (v : list Q) : list Q := map (fun x => x - mean v) v.

Definition covariance (X : list (list Q)) : list (list Q) :=
  let cols := map (fun j => centered (column j X)) (seq 0 (length (hd [] X))) in
  map (fun cj =>
         map (fun ck => Qred (dot cj ck / inject_Z (Z.of_nat (length X) - 1))) cols)
      cols.

(** Gauss-Jordan elimination on [A | I]; a column without pivot raises. *)
Definition unit_row (i n : nat) : list Q :=
  map (fun j => if Nat.eqb i j then 1 else 0) (seq 0 n).

Definition eliminate (c : nat) (p r : list Q) : list Q :=
  map (fun xy => Qred (snd xy - nth c r 0 * fst xy)) (combine p r).

Fixpoint find_pivot (c : nat) (rows : list (list Q)) : option (list Q * list (list Q)) :=
  match rows with
  | [] => None
  | r :: rs =>
      if Qeq_bool (nth c r 0) 0
      then match find_pivot c rs with
           | Some (p, rest) => Some (p, r :: rest)
           | None => None
           end
      else Some (r, rs)
  end.

Fixpoint gauss_jordan (cols : list nat) (done todo : list (list Q))
  : result (list (list Q)) :=
  match cols with
  | [] => Ok done
  | c :: cols' =>
      match find_pivot c todo with
      | None => Raise LinAlgError
      | Some (p, rest) =>
          let p' := map (fun x => Qred (x / nth c p 0)) p in
          gauss_jordan cols' (map (eliminate c p') done ++ [p']) (map (eliminate c p') rest)
      end
  end.

Definition inverse (A : list (list Q)) : result (list (list Q)) :=
  let n := length A in
  if forallb (fun row => Nat.eqb (length row) n) A
  then
    reduced <- gauss_jordan (seq 0 n) []
                 (map (fun ir => snd ir ++ unit_row (fst ir) n) (combine (seq 0 n) A)) ;;
    Ok (map (skipn n) reduced)
  else Raise LinAlgError.

End Reference.

(** ** Notions used in the statements *)

(** Rows of [rows] whose mask entry is [true], in order. *)
Definition select {R : Type} (rows : list R) (mask : list bool) : list R :=
  map fst (filter snd (combine rows mask)).

(** The membership test behind one entry of [found_mask]. *)
Definition is_found (df_found_complete : list Injection) (r : Injection) : bool :=
  existsb (Z.eqb (stamp_id r)) (stamp_ids df_found_complete).

(** Prediction and label differ, or agree, as booleans. *)
Definition differs (py : bool * bool) : bool := negb (Bool.eqb (fst py) (snd py)).

Definition agrees (py : bool * bool) : bool := Bool.eqb (fst py) (snd py).

Section Rows.

Context {NS : NeighborSearch}.

(** The label [predict] gives one query row. *)
Definition predict_row (KNC : Fitted) (x : list Q) : bool :=
  nth (mode (votes KNC (neigh_ind (metric (params KNC)) (fit_X KNC)
                                  (Z.to_nat (n_neighbors (params KNC))) x)))
      (classes_ KNC) false.

(** The row [predict_proba] gives one query row. *)
Definition proba_row (KNC : Fitted) (x : list Q) : list Q :=
  let v := votes KNC (neigh_ind (metric (params KNC)) (fit_X KNC)
                                (Z.to_nat (n_neighbors (params KNC))) x) in
  let normalizer := fold_right Nat.add 0%nat v in
  let normalizer := if Nat.eqb normalizer 0 then 1%nat else normalizer in
  map (fun c => inject_Z (Z.of_nat c) / inject_Z (Z.of_nat normalizer)) v.

End Rows.

Section Ambient.

Context {RS : RandomState}.

(** The partitions a split returns, without the generator state. *)
Definition partitions {P : Type} (r : result (P * rng_state)) : result P :=
  '(p, _) <- r ;; Ok p.

(** A computation that reads no ambient generator state. *)
Definition ambient_free {P : Type} (split : rng_state -> result (P * rng_state)) : Prop :=
  forall g1 g2, partitions (split g1) = partitions (split g2).

End Ambient.

(** In binary64, the two percentages of a tally with [c] correct and [i]
    incorrect predictions add up to exactly [100.0]. *)
Definition sum_is_100 (c i : Z) : bool :=
  PrimFloat.eqb (PrimFloat.add (np.percentage64 c (c + i)) (np.percentage64 i (c + i)))
                (np.float64 100).

(** In binary64, a tenth of [n] rows rounds up to [(n + 9) / 10] rows. *)
Definition tenth_is_ceiling (n : Z) : bool :=
  match math.ceil (PrimFloat.mul (np.literal64 (1 # 10)) (np.float64 n)) with
  | Ok c => (c =? (n + 9) / 10)%Z
  | Raise _ => false
  end.

Fixpoint tenths_from (count : nat) (n : Z) : bool :=
  match count with
  | O => true
  | S count' => tenth_is_ceiling n && tenths_from count' (n + 1)
  end.

Definition sums_are_100 (N : nat) : bool :=
  forallb (fun n => forallb (fun c => sum_is_100 (Z.of_nat c) (Z.of_nat (n - c)))
                            (seq 0 (S n)))
          (seq 1 N).

(** The rows of [l] at position [i], none when [i] is past the end. *)
Definition row_at {A : Type} (l : list A) (i : nat) : list A :=
  match nth_error l i with
  | Some a => [a]
  | None => []
  end.

(** The record lines 402-407 build from the two counts. *)
Definition tally (c i : Z) : EvaluationResult :=
  {| correct := c;
     incorrect := i;
     percentage_correct := np.true_divide (100 * inject_Z c) (c + i);
     percentage_incorrect := np.true_divide (100 * inject_Z i) (c + i) |}.

(** ** Example tables *)

(** Scenario 1 of the specification: identifiers 0-9, magnitudes 18-27, the
    five brightest recovered. *)
Definition injection (id : Z) (mag : Z) : Injection :=
  {| stamp_id := id; stamp_mag := inject_Z mag; lmt_mag := 0;
     surface_brightness := 0; seeing := 0; medsky := 0 |}.

Definition scenario1_all : list Injection :=
  map (fun i => injection (Z.of_nat i) (18 + Z.of_nat i)) (seq 0 10).

Definition scenario1_found : list Injection := firstn 5 scenario1_all.

(** A one-neighbour Euclidean classifier on [([0], true)] and [([10], false)]
    (scenario 2 of the specification). *)
Definition scenario2 : Fitted :=
  {| params := {| n_neighbors := 1; metric := Euclidean |};
     fit_X := [[0]; [10]];
     fit_y := [true; false];
     classes_ := [false; true] |}.

(** A classifier for which the query [[1]] is midway between a [true] and a
    [false] training row. *)
Definition tie : Fitted :=
  {| params := {| n_neighbors := 1; metric := Euclidean |};
     fit_X := [[0]; [2]];
     fit_y := [true; false];
     classes_ := [false; true] |}.

(** Eleven one-column rows, the last one missed. *)
Definition demo_features : list (list Q) :=
  map (fun i => [inject_Z (Z.of_nat i)]) (seq 1 11).

Definition demo_targets : list bool :=
  map (fun i => Nat.ltb i 11) (seq 1 11).

(** Two tables of ten three-column rows that differ in row 0 only; with
    seed 0 the rotating generator puts row 0 in the test partition and the
    nine rows of [maha_rows] in the training partition. *)
Definition maha_rows : list (list Q) :=
  map (fun i => [inject_Z (Z.of_nat i);
                 inject_Z (Z.of_nat ((i * i) mod 7));
                 inject_Z (Z.of_nat ((3 * i) mod 5))]) (seq 1 9).

Definition maha_features1 : list (list Q) := [0; 0; 0] :: maha_rows.

Definition maha_features2 : list (list Q) := [5; 5; 5] :: maha_rows.

Definition maha_targets : list bool :=
  [true; true; true; false; true; false; true; false; false; false].

(** Three training rows, the middle one [false]. *)
Definition three_rows : Fitted :=
  {| params := {| n_neighbors := 3; metric := Euclidean |};
     fit_X := [[0]; [10]; [2]];
     fit_y := [true; false; true];
     classes_ := [false; true] |}.

(** * Properties *)

(** ** The exception monad *)

Lemma bind_Ok_inv {A B : Type} (m : result A) (k : A -> result B) (b : B) :
  bind m k = Ok b -> exists a, m = Ok a /\ k a = Ok b.
Proof.
  destruct m as [a|e]; simpl; intros H.
  - exists a; split; [reflexivity | exact H].
  - discriminate.
Qed.

(** ** Lists, masks and positional selection *)

Lemma nth_error_combine {A B : Type} (l : list A) (l' : list B) (i : nat) (a : A) (b : B) :
  nth_error l i = Some a -> nth_error l' i = Some b ->
  nth_error (combine l l') i = Some (a, b).
Proof.
  revert l' i; induction l as [|x l IH]; intros [|y l'] [|i]; simpl; try discriminate.
  - intros Ha Hb; inversion Ha; inversion Hb; reflexivity.
  - apply IH.
Qed.

Lemma select_cons {R : Type} (r : R) (rows : list R) (b : bool) (mask : list bool) :
  select (r :: rows) (b :: mask) = if b then r :: select rows mask else select rows mask.
Proof. unfold select; simpl; destruct b; reflexivity. Qed.

Lemma select_map {R S : Type} (f : R -> S) (rows : list R) (mask : list bool) :
  select (map f rows) mask = map f (select rows mask).
Proof.
  revert mask; induction rows as [|r rows IH]; intros [|b mask]; try reflexivity.
  simpl map at 1. rewrite !select_cons, IH. destruct b; reflexivity.
Qed.

Lemma select_partition {R : Type} (rows : list R) (mask : list bool) :
  length mask = length rows ->
  Permutation (select rows mask ++ select rows (map negb mask)) rows.
Proof.
  revert mask; induction rows as [|r rows IH]; intros [|b mask]; simpl; try discriminate.
  - intros _; constructor.
  - intros H; injection H as H. rewrite !select_cons. destruct b; simpl.
    + constructor. apply IH, H.
    + apply Permutation_sym, Permutation_cons_app, Permutation_sym, IH, H.
Qed.

Lemma select_length {R : Type} (rows : list R) (mask : list bool) :
  length mask = length rows ->
  (length (select rows mask) + length (select rows (map negb mask)) = length rows)%nat.
Proof.
  intros H. rewrite <- length_app. apply Permutation_length, select_partition, H.
Qed.

Lemma nonzero_from_spec (mask : list bool) (k i : nat) :
  In i (np.nonzero_from k mask) <-> (k <= i)%nat /\ nth_error mask (i - k) = Some true.
Proof.
  revert k; induction mask as [|b mask IH]; intros k; simpl.
  - split; [tauto|]. intros [_ H]. destruct (i - k)%nat; discriminate.
  - assert (Hstep : In i (np.nonzero_from (S k) mask) <->
                    (k < i)%nat /\ nth_error (b :: mask) (i - k) = Some true).
    { rewrite IH. split; intros [Hle H]; (split; [lia|]).
      - replace (i - k)%nat with (S (i - S k)) by lia. exact H.
      - replace (i - k)%nat with (S (i - S k)) in H by lia. exact H. }
    destruct b; simpl; rewrite ?Hstep.
    + split.
      * intros [<- | [Hlt H]]; [rewrite Nat.sub_diag; split; [lia|reflexivity] | split; [lia|exact H]].
      * intros [Hle H]. destruct (Nat.eq_dec k i) as [->|Hne]; [left; reflexivity|].
        right; split; [lia | exact H].
    + split.
      * intros [Hlt H]; split; [lia | exact H].
      * intros [Hle H]. split; [|exact H].
        destruct (Nat.eq_dec k i) as [->|Hne]; [|lia].
        rewrite Nat.sub_diag in H. discriminate.
Qed.

Lemma nonzero_spec (mask : list bool) (i : nat) :
  In i (np.nonzero mask) <-> nth_error mask i = Some true.
Proof.
  unfold np.nonzero. rewrite nonzero_from_spec, Nat.sub_0_r. split; [tauto | split; [lia|assumption]].
Qed.

Lemma take_nonzero_from {R : Type} (pre rows : list R) (mask : list bool) :
  length mask = length rows ->
  np.take (pre ++ rows) (np.nonzero_from (length pre) mask) = Ok (select rows mask).
Proof.
  revert pre mask; induction rows as [|r rows IH]; intros pre [|b mask]; simpl; try discriminate.
  - reflexivity.
  - intros H; injection H as H. rewrite select_cons.
    specialize (IH (pre ++ [r]) mask H).
    rewrite <- app_assoc, length_app in IH. simpl in IH.
    rewrite Nat.add_1_r in IH.
    destruct b; [|exact IH].
    unfold np.take in *. simpl.
    rewrite nth_error_app2 by lia. rewrite Nat.sub_diag. simpl.
    rewrite IH. reflexivity.
Qed.

Lemma take_nonzero {R : Type} (rows : list R) (mask : list bool) :
  length mask = length rows ->
  np.take rows (np.nonzero mask) = Ok (select rows mask).
Proof. intros H. exact (take_nonzero_from [] rows mask H). Qed.

Lemma in1d_length (ar1 ar2 : list Z) : length (np.in1d ar1 ar2) = length ar1.
Proof. unfold np.in1d. apply length_map. Qed.

Lemma in1d_spec (ar1 ar2 : list Z) (i : nat) (a : Z) :
  nth_error ar1 i = Some a ->
  exists b, nth_error (np.in1d ar1 ar2) i = Some b /\ (b = true <-> In a ar2).
Proof.
  intros H. exists (existsb (Z.eqb a) ar2). split.
  - unfold np.in1d. rewrite nth_error_map, H. reflexivity.
  - rewrite existsb_exists. split.
    + intros [x [Hin Heq]]. apply Z.eqb_eq in Heq. subst. exact Hin.
    + intros Hin. exists a. split; [exact Hin | apply Z.eqb_refl].
Qed.

Lemma found_mask_length (df_all_complete df_found_complete : list Injection) :
  length (found_mask df_all_complete df_found_complete) = length df_all_complete.
Proof. unfold found_mask, stamp_ids. rewrite in1d_length. apply length_map. Qed.

Lemma df_all_found_eq (df_all_complete df_found_complete : list Injection) :
  df_all_found df_all_complete df_found_complete =
  Ok (combine (df_all df_all_complete) (found_mask df_all_complete df_found_complete)).
Proof.
  unfold df_all_found, pd.assign, df_all, pd.loc_all.
  rewrite found_mask_length, length_map, Nat.eqb_refl. reflexivity.
Qed.

Lemma df_missed_eq (df_all_complete df_found_complete : list Injection) :
  df_missed df_all_complete df_found_complete =
  Ok (map relevant_cols
        (select df_all_complete
           (np.logical_not (found_mask df_all_complete df_found_complete)))).
Proof.
  unfold df_missed, pd.loc_mask, np.logical_not.
  rewrite length_map, found_mask_length, Nat.eqb_refl.
  rewrite take_nonzero by (rewrite length_map; apply found_mask_length).
  reflexivity.
Qed.

(** ** Label derivation *)

(** C1.  For every complete table and recovered table, the [found] column is
    attached without error; the labelled table has one row per row of the
    complete table, at the same position, carrying that row's relevant
    columns; and the label at a position is [true] exactly when the
    identifier of the complete table's row at that position occurs among the
    identifiers of the recovered table. *)
Theorem deriveLabels_one_per_record (df_all_complete df_found_complete : list Injection) :
  exists labeled,
    df_all_found df_all_complete df_found_complete = Ok labeled /\
    length labeled = length df_all_complete /\
    forall i r, nth_error df_all_complete i = Some r ->
      exists b, nth_error labeled i = Some (relevant_cols r, b) /\
                (b = true <-> In (stamp_id r) (stamp_ids df_found_complete)).
Proof.
  eexists. split; [apply df_all_found_eq|]. split.
  - rewrite length_combine. unfold df_all, pd.loc_all.
    rewrite length_map, found_mask_length. apply Nat.min_id.
  - intros i r Hr.
    destruct (in1d_spec (stamp_ids df_all_complete) (stamp_ids df_found_complete) i
                (stamp_id r)) as [b [Hb Hiff]].
    { unfold stamp_ids. rewrite nth_error_map, Hr. reflexivity. }
    exists b. split; [|exact Hiff].
    apply nth_error_combine; [|exact Hb].
    unfold df_all, pd.loc_all. rewrite nth_error_map, Hr. reflexivity.
Qed.

Lemma nth_error_combine_inv {A B : Type} (l : list A) (l' : list B) (i : nat) (a : A) (b : B) :
  nth_error (combine l l') i = Some (a, b) ->
  nth_error l i = Some a /\ nth_error l' i = Some b.
Proof.
  revert l' i; induction l as [|x l IH]; intros [|y l'] [|i]; simpl; try discriminate.
  - intros H; inversion H; split; reflexivity.
  - apply IH.
Qed.

Lemma select_pred {R : Type} (p : R -> bool) (rows : list R) :
  select rows (map p rows) = filter p rows.
Proof.
  induction rows as [|r rows IH]; [reflexivity|].
  simpl map. rewrite select_cons, IH. simpl. destruct (p r); reflexivity.
Qed.

Lemma select_combine {R : Type} (rows : list R) (mask : list bool) :
  map fst (filter snd (combine rows mask)) = select rows mask.
Proof. reflexivity. Qed.

Lemma NoDup_map_filter {T K : Type} (key : T -> K) (keep : T -> bool) (rows : list T) :
  NoDup (map key rows) -> NoDup (map key (filter keep rows)).
Proof.
  induction rows as [|r rows IH]; simpl; intros Hnd; [constructor|].
  inversion Hnd as [|? ? Hfresh Hrest]; subst.
  destruct (keep r); simpl; [constructor|]; auto.
  intros Hin. apply Hfresh. apply in_map_iff in Hin as [r' [Hkey Hin]].
  apply in_map_iff. exists r'. split; [exact Hkey|]. apply filter_In in Hin. tauto.
Qed.

Lemma found_mask_pred (df_all_complete df_found_complete : list Injection) :
  found_mask df_all_complete df_found_complete =
  map (is_found df_found_complete) df_all_complete.
Proof. unfold found_mask, np.in1d, stamp_ids. rewrite map_map. reflexivity. Qed.

Lemma is_found_spec (df_found_complete : list Injection) (r : Injection) :
  is_found df_found_complete r = true <-> In (stamp_id r) (stamp_ids df_found_complete).
Proof.
  unfold is_found. rewrite existsb_exists. split.
  - intros [x [Hin Heq]]. apply Z.eqb_eq in Heq. subst. exact Hin.
  - intros Hin. exists (stamp_id r). split; [exact Hin | apply Z.eqb_refl].
Qed.

(** C10.  The missed table is built without error from the rows of the
    complete table at the positions where the negated membership mask holds;
    a position of the complete table is among them exactly when the labelled
    table carries [found = false] at that position; the rows labelled
    [found = true] followed by the missed rows are a rearrangement of all
    rows.  With unique identifiers in both tables and every recovered
    identifier present in the complete table, the identifiers of the rows
    labelled [true] are exactly the recovered identifiers, so the recovered
    and the missed rows together count the complete table. *)
Theorem missed_iff_not_found (df_all_complete df_found_complete : list Injection)
    (Hall : NoDup (stamp_ids df_all_complete))
    (Hfound : NoDup (stamp_ids df_found_complete))
    (Hsub : incl (stamp_ids df_found_complete) (stamp_ids df_all_complete)) :
  exists labeled missed missed_rows found_rows,
    df_all_found df_all_complete df_found_complete = Ok labeled /\
    df_missed df_all_complete df_found_complete = Ok missed /\
    np.take df_all_complete
      (np.nonzero (np.logical_not (found_mask df_all_complete df_found_complete)))
      = Ok missed_rows /\
    missed = map relevant_cols missed_rows /\
    (forall i r, nth_error df_all_complete i = Some r ->
       (In i (np.nonzero (np.logical_not (found_mask df_all_complete df_found_complete)))
        <-> nth_error labeled i = Some (relevant_cols r, false))) /\
    Permutation (map fst (filter snd labeled) ++ missed) (df_all df_all_complete) /\
    np.take df_all_complete (np.nonzero (found_mask df_all_complete df_found_complete))
      = Ok found_rows /\
    Permutation (found_rows ++ missed_rows) df_all_complete /\
    Permutation (stamp_ids found_rows) (stamp_ids df_found_complete) /\
    (length df_found_complete + length missed = length df_all_complete)%nat.
Proof.
  set (mask := found_mask df_all_complete df_found_complete).
  assert (Hlen : length mask = length df_all_complete) by apply found_mask_length.
  assert (Hlen' : length (np.logical_not mask) = length df_all_complete).
  { unfold np.logical_not. rewrite length_map. exact Hlen. }
  assert (Hids : Permutation (stamp_ids (select df_all_complete mask))
                             (stamp_ids df_found_complete)).
  { unfold mask. rewrite found_mask_pred, select_pred.
    apply NoDup_Permutation.
    - apply NoDup_map_filter, Hall.
    - exact Hfound.
    - intros x. unfold stamp_ids at 1. rewrite in_map_iff. split.
      + intros [r [<- Hin]]. apply filter_In in Hin as [_ Hin].
        apply is_found_spec, Hin.
      + intros Hin. pose proof (Hsub x Hin) as Hall_in.
        unfold stamp_ids in Hall_in. apply in_map_iff in Hall_in as [r [<- Hr]].
        exists r. split; [reflexivity|]. apply filter_In. split; [exact Hr|].
        apply is_found_spec, Hin. }
  exists (combine (df_all df_all_complete) mask),
         (map relevant_cols (select df_all_complete (np.logical_not mask))),
         (select df_all_complete (np.logical_not mask)),
         (select df_all_complete mask).
  split; [apply df_all_found_eq|].
  split; [apply df_missed_eq|].
  split; [apply take_nonzero, Hlen'|].
  split; [reflexivity|].
  split; [|split; [|split; [apply take_nonzero, Hlen|split; [|split; [exact Hids|]]]]].
  - intros i r Hr. rewrite nonzero_spec. unfold np.logical_not.
    rewrite nth_error_map. split.
    + intros H. apply nth_error_combine.
      * unfold df_all, pd.loc_all. rewrite nth_error_map, Hr. reflexivity.
      * destruct (nth_error mask i) as [[|]|]; simpl in H; try discriminate. reflexivity.
    + intros H. apply nth_error_combine_inv in H as [_ H]. rewrite H. reflexivity.
  - rewrite select_combine, <- select_map. unfold np.logical_not.
    apply select_partition. unfold df_all, pd.loc_all. rewrite length_map. exact Hlen.
  - apply select_partition, Hlen.
  - rewrite length_map.
    rewrite <- (length_map stamp_id df_found_complete).
    fold (stamp_ids df_found_complete).
    rewrite <- (Permutation_length Hids). unfold stamp_ids. rewrite length_map.
    apply select_length, Hlen.
Qed.

(** Scenario 1: identifiers 0-4 are labelled found, 5-9 are not. *)
Example scenario1_labels :
  found_mask scenario1_all scenario1_found
  = [true; true; true; true; true; false; false; false; false; false].
Proof. reflexivity. Qed.

Lemma missed_iff_not_found_witness :
  exists labeled missed missed_rows found_rows,
    df_all_found scenario1_all scenario1_found = Ok labeled /\
    df_missed scenario1_all scenario1_found = Ok missed /\
    np.take scenario1_all
      (np.nonzero (np.logical_not (found_mask scenario1_all scenario1_found)))
      = Ok missed_rows /\
    missed = map relevant_cols missed_rows /\
    (forall i r, nth_error scenario1_all i = Some r ->
       (In i (np.nonzero (np.logical_not (found_mask scenario1_all scenario1_found)))
        <-> nth_error labeled i = Some (relevant_cols r, false))) /\
    Permutation (map fst (filter snd labeled) ++ missed) (df_all scenario1_all) /\
    np.take scenario1_all (np.nonzero (found_mask scenario1_all scenario1_found))
      = Ok found_rows /\
    Permutation (found_rows ++ missed_rows) scenario1_all /\
    Permutation (stamp_ids found_rows) (stamp_ids scenario1_found) /\
    (length scenario1_found + length missed = length scenario1_all)%nat.
Proof.
  apply (missed_iff_not_found scenario1_all scenario1_found).
  - vm_compute. repeat (constructor; [simpl; intuition discriminate|]). constructor.
  - vm_compute. repeat (constructor; [simpl; intuition discriminate|]). constructor.
  - vm_compute. intros a H. simpl in H. intuition.
Defined.

Lemma In_firstn {A : Type} (k : nat) (l : list A) (x : A) : In x (firstn k l) -> In x l.
Proof.
  intros H. rewrite <- (firstn_skipn k l). apply in_or_app. left; exact H.
Qed.

Lemma In_skipn {A : Type} (k : nat) (l : list A) (x : A) : In x (skipn k l) -> In x l.
Proof.
  intros H. rewrite <- (firstn_skipn k l). apply in_or_app. right; exact H.
Qed.

Lemma NoDup_app_disjoint {A : Type} (l1 l2 : list A) (a : A) :
  NoDup (l1 ++ l2) -> In a l1 -> ~ In a l2.
Proof.
  induction l1 as [|x l1 IH]; simpl; intros Hnd Hin; [contradiction|].
  inversion Hnd as [|? ? Hnotin Hnd']; subst.
  destruct Hin as [-> | Hin].
  - intros H2. apply Hnotin, in_or_app. right; exact H2.
  - apply IH; assumption.
Qed.

(** ** The executable instances meet their interfaces *)

Module ReferenceFacts.

Import Reference.

Lemma rotate_perm (s : nat) (l : list nat) : Permutation (rotate s l) l.
Proof.
  unfold rotate.
  eapply Permutation_trans; [apply Permutation_app_comm|].
  rewrite firstn_skipn. apply Permutation_refl.
Qed.

Lemma rotating_permutation_perm (s n : nat) :
  Permutation (fst (rotating_permutation s n)) (seq 0 n).
Proof. apply rotate_perm. Qed.

Section Sorting.

Variable d : nat -> Q.

Lemma insert_by_perm (i : nat) (l : list nat) : Permutation (insert_by d i l) (i :: l).
Proof.
  induction l as [|j l IH]; simpl.
  - apply Permutation_refl.
  - destruct (Qle_bool (d i) (d j)).
    + apply Permutation_refl.
    + eapply Permutation_trans; [apply perm_skip, IH | apply perm_swap].
Qed.

Lemma sort_by_perm (l : list nat) : Permutation (sort_by d l) l.
Proof.
  induction l as [|i l IH]; simpl.
  - constructor.
  - eapply Permutation_trans; [apply insert_by_perm | apply perm_skip, IH].
Qed.

Lemma insert_by_sorted (i : nat) (l : list nat) :
  StronglySorted (le_by d) l -> StronglySorted (le_by d) (insert_by d i l).
Proof.
  induction l as [|j l IH]; simpl; intros Hs.
  - constructor; [constructor | constructor].
  - inversion Hs as [|? ? Hl Hall]; subst.
    destruct (Qle_bool (d i) (d j)) eqn:Hle.
    + apply Qle_bool_iff in Hle.
      constructor; [exact Hs|]. constructor; [exact Hle|].
      apply Forall_forall. intros x Hx.
      unfold le_by. apply Qle_trans with (d j); [exact Hle|].
      exact (proj1 (Forall_forall _ _) Hall x Hx).
    + assert (Hji : d j <= d i).
      { apply Qlt_le_weak, Qnot_le_lt. intros H.
        apply Qle_bool_iff in H. congruence. }
      constructor; [apply IH, Hl|].
      apply Forall_forall. intros x Hx.
      apply (Permutation_in _ (insert_by_perm i l)) in Hx.
      destruct Hx as [<- | Hx]; [exact Hji|].
      exact (proj1 (Forall_forall _ _) Hall x Hx).
Qed.

Lemma sort_by_sorted (l : list nat) : StronglySorted (le_by d) (sort_by d l).
Proof.
  induction l as [|i l IH]; simpl.
  - constructor.
  - apply insert_by_sorted, IH.
Qed.

Lemma sorted_prefix_le (l : list nat) (k i j : nat) :
  StronglySorted (le_by d) l -> In i (firstn k l) -> In j (skipn k l) -> d i <= d j.
Proof.
  revert k; induction l as [|x l IH]; intros k Hs Hi Hj.
  - rewrite firstn_nil in Hi. contradiction.
  - destruct k as [|k]; [contradiction|]. simpl in Hi, Hj.
    inversion Hs as [|? ? Hl Hall]; subst.
    destruct Hi as [<- | Hi].
    + apply (proj1 (Forall_forall _ _) Hall). eapply In_skipn, Hj.
    + eapply IH; eassumption.
Qed.

End Sorting.

Lemma firstn_sort_nearest (m : Metric) (X : list (list Q)) (q : list Q) (k : nat)
    (base : list nat) :
  Permutation base (seq 0 (length X)) ->
  (k <= length X)%nat ->
  k_nearest m X q k (firstn k (sort_by (fun i => dist2 m (nth i X []) q) base)).
Proof.
  intros Hbase Hk.
  set (d := fun i => dist2 m (nth i X []) q).
  assert (Hperm : Permutation (sort_by d base) (seq 0 (length X))).
  { eapply Permutation_trans; [apply sort_by_perm | exact Hbase]. }
  assert (Hlen : length (sort_by d base) = length X).
  { rewrite (Permutation_length Hperm). apply length_seq. }
  assert (Hnd : NoDup (sort_by d base)).
  { eapply Permutation_NoDup; [apply Permutation_sym, Hperm | apply seq_NoDup]. }
  repeat split.
  - rewrite length_firstn, Hlen. lia.
  - rewrite <- (firstn_skipn k (sort_by d base)) in Hnd.
    eapply NoDup_app_remove_r, Hnd.
  - intros i Hi. apply In_firstn in Hi.
    apply (Permutation_in _ Hperm), in_seq in Hi. lia.
  - intros i j Hi Hj Hnot.
    apply (sorted_prefix_le d (sort_by d base) k); [apply sort_by_sorted | exact Hi |].
    assert (Hin : In j (sort_by d base)).
    { apply (Permutation_in _ (Permutation_sym Hperm)), in_seq. lia. }
    rewrite <- (firstn_skipn k (sort_by d base)) in Hin.
    apply in_app_or in Hin as [Hin | Hin]; [contradiction | exact Hin].
Qed.

Lemma brute_force_nearest (m : Metric) (X : list (list Q)) (k : nat) (q : list Q) :
  (k <= length X)%nat -> k_nearest m X q k (brute_force m X k q).
Proof. apply firstn_sort_nearest, Permutation_refl. Qed.

Lemma brute_force_rev_nearest (m : Metric) (X : list (list Q)) (k : nat) (q : list Q) :
  (k <= length X)%nat -> k_nearest m X q k (brute_force_rev m X k q).
Proof. apply firstn_sort_nearest, Permutation_sym, Permutation_rev. Qed.

Lemma k_nearest_selected (m : Metric) (X : list (list Q)) (q : list Q) (k : nat)
    (nbrs : list nat) :
  k_nearest m X q k nbrs -> selected X k nbrs.
Proof. intros [Hlen [Hnd [Hin _]]]. repeat split; assumption. Qed.

Lemma brute_force_rows (m : Metric) (X : list (list Q)) (k : nat) (q : list Q) :
  (k <= length X)%nat -> selected X k (brute_force m X k q).
Proof. intros Hk. eapply k_nearest_selected, brute_force_nearest, Hk. Qed.

Lemma brute_force_rev_rows (m : Metric) (X : list (list Q)) (k : nat) (q : list Q) :
  (k <= length X)%nat -> selected X k (brute_force_rev m X k q).
Proof. intros Hk. eapply k_nearest_selected, brute_force_rev_nearest, Hk. Qed.

End ReferenceFacts.

#[local] Instance rotating : RandomState := {|
  rng_state := nat;
  seed := Z.to_nat;
  permutation := Reference.rotating_permutation;
  permutation_perm := ReferenceFacts.rotating_permutation_perm
|}.

#[local] Instance brute : NeighborSearch := {|
  neigh_ind := Reference.brute_force;
  neigh_ind_rows := ReferenceFacts.brute_force_rows;
  neigh_ind_nearest := fun X k q Hk _ => ReferenceFacts.brute_force_nearest Euclidean X k q Hk
|}.

Definition brute_rev : NeighborSearch := {|
  neigh_ind := Reference.brute_force_rev;
  neigh_ind_rows := ReferenceFacts.brute_force_rev_rows;
  neigh_ind_nearest := fun X k q Hk _ =>
    ReferenceFacts.brute_force_rev_nearest Euclidean X k q Hk
|}.

#[local] Instance exact : Numerics := {|
  DataFrame_cov := Reference.covariance;
  linalg_inv := Reference.inverse
|}.

(** ** Evaluation *)

Section Evaluation.

Context {NS : NeighborSearch}.

Lemma sum_filter {A : Type} (f : A -> bool) (l : list A) :
  np.sum (map f l) = Z.of_nat (length (filter f l)).
Proof.
  induction l as [|a l IH]; [reflexivity|].
  simpl. rewrite IH. destruct (f a); simpl length; lia.
Qed.

Lemma sum_logical_not (a : list bool) :
  (np.sum (np.logical_not a) + np.sum a = Z.of_nat (length a))%Z.
Proof.
  unfold np.logical_not.
  induction a as [|b a IH]; [reflexivity|].
  simpl map. simpl np.sum. simpl length. destruct b; simpl negb; lia.
Qed.

Lemma logical_xor_same_length (a b : list bool) :
  length a = length b ->
  np.logical_xor a b = Ok (map (fun p => xorb (fst p) (snd p)) (combine a b)).
Proof. intros H. unfold np.logical_xor. rewrite H, Nat.eqb_refl. reflexivity. Qed.

Lemma kneighbors_Ok_inv (KNC : Fitted) (X : list (list Q)) (ind : list (list nat)) :
  kneighbors KNC X = Ok ind ->
  X <> [] /\
  (n_neighbors (params KNC) <= Z.of_nat (length (fit_X KNC)))%Z /\
  ind = map (neigh_ind (metric (params KNC)) (fit_X KNC)
                       (Z.to_nat (n_neighbors (params KNC)))) X.
Proof.
  unfold kneighbors.
  destruct X as [|x X]; [discriminate|]. simpl Nat.eqb. cbv iota.
  destruct (Z.ltb_spec (Z.of_nat (length (fit_X KNC))) (n_neighbors (params KNC)))
    as [Hlt|Hge]; [discriminate|].
  intros H; inversion H. split; [discriminate|]. split; [assumption | reflexivity].
Qed.

Lemma kneighbors_total (KNC : Fitted) (X : list (list Q)) :
  X <> [] ->
  (n_neighbors (params KNC) <= Z.of_nat (length (fit_X KNC)))%Z ->
  kneighbors KNC X =
  Ok (map (neigh_ind (metric (params KNC)) (fit_X KNC)
                     (Z.to_nat (n_neighbors (params KNC)))) X).
Proof.
  intros HX Hk. unfold kneighbors.
  destruct X as [|x X]; [contradiction|]. simpl Nat.eqb. cbv iota.
  destruct (Z.ltb_spec (Z.of_nat (length (fit_X KNC))) (n_neighbors (params KNC)));
    [lia | reflexivity].
Qed.

Lemma predict_Ok_inv (KNC : Fitted) (X : list (list Q)) (preds : list bool) :
  predict KNC X = Ok preds ->
  X <> [] /\
  (n_neighbors (params KNC) <= Z.of_nat (length (fit_X KNC)))%Z /\
  preds = map (predict_row KNC) X.
Proof.
  unfold predict. intros H. apply bind_Ok_inv in H as [ind [Hind H]].
  apply kneighbors_Ok_inv in Hind as [HX [Hk ->]].
  inversion H. rewrite map_map. repeat split; assumption.
Qed.

Lemma predict_total (KNC : Fitted) (X : list (list Q)) :
  X <> [] ->
  (n_neighbors (params KNC) <= Z.of_nat (length (fit_X KNC)))%Z ->
  predict KNC X = Ok (map (predict_row KNC) X).
Proof.
  intros HX Hk. unfold predict. rewrite kneighbors_total by assumption.
  simpl. rewrite map_map. reflexivity.
Qed.

Lemma predict_Raise_inv (KNC : Fitted) (X : list (list Q)) (e : exn) :
  predict KNC X = Raise e ->
  X = [] \/ (Z.of_nat (length (fit_X KNC)) < n_neighbors (params KNC))%Z.
Proof.
  intros H. destruct X as [|x X]; [left; reflexivity|]. right.
  destruct (Z.lt_ge_cases (Z.of_nat (length (fit_X KNC))) (n_neighbors (params KNC)))
    as [Hlt|Hge]; [exact Hlt|].
  rewrite predict_total in H by (try discriminate; lia). discriminate.
Qed.

Lemma evaluate_eq (KNC : Fitted) (X_test : list (list Q)) (y_test : list bool)
    (preds : list bool) :
  length X_test = length y_test ->
  predict KNC X_test = Ok preds ->
  let mask := map (fun p => xorb (fst p) (snd p)) (combine preds y_test) in
  length mask = length X_test /\
  evaluate KNC X_test y_test =
  Ok {| correct := np.sum (np.logical_not mask);
        incorrect := np.sum mask;
        percentage_correct :=
          np.true_divide (100 * inject_Z (np.sum (np.logical_not mask)))
                         (np.sum (np.logical_not mask) + np.sum mask);
        percentage_incorrect :=
          np.true_divide (100 * inject_Z (np.sum mask))
                         (np.sum (np.logical_not mask) + np.sum mask) |}.
Proof.
  intros Hlen Hp. pose proof (predict_Ok_inv _ _ _ Hp) as [_ [_ Hpreds]].
  assert (Hl : length preds = length y_test).
  { rewrite Hpreds, length_map. exact Hlen. }
  simpl. split.
  - rewrite length_map, length_combine, Hl, Nat.min_id. symmetry; exact Hlen.
  - unfold evaluate. rewrite Hp. simpl.
    rewrite (logical_xor_same_length _ _ Hl). reflexivity.
Qed.

(** C2.  Whenever the tally of lines 400-407 produces a result for a
    classifier and a test set (as many label entries as feature rows), the
    two counts add up to the number of test rows, both percentages are
    finite numbers (never the not-a-number that a division by zero would
    give), and in exact arithmetic, of which the binary64 values are the
    roundings, they add up to 100. *)
Theorem evaluate_percentages_sum (KNC : Fitted) (X_test : list (list Q))
    (y_test : list bool) (r : EvaluationResult) :
  length X_test = length y_test ->
  evaluate KNC X_test y_test = Ok r ->
  (correct r + incorrect r = Z.of_nat (length X_test))%Z /\
  exists pc pi,
    percentage_correct r = np.Fin pc /\
    percentage_incorrect r = np.Fin pi /\
    pc + pi == 100.
Proof.
  intros Hlen Hev.
  destruct (predict KNC X_test) as [preds|e] eqn:Hp;
    [|unfold evaluate in Hev; rewrite Hp in Hev; discriminate].
  pose proof (predict_Ok_inv _ _ _ Hp) as [HX _].
  destruct (evaluate_eq KNC X_test y_test preds Hlen Hp) as [Hmask Heq].
  rewrite Heq in Hev. inversion Hev; subst r; clear Hev Heq. simpl.
  set (mask := map (fun p => xorb (fst p) (snd p)) (combine preds y_test)) in *.
  pose proof (sum_logical_not mask) as Hsum. rewrite Hmask in Hsum.
  split; [exact Hsum|].
  assert (Hpos : (0 < Z.of_nat (length X_test))%Z).
  { destruct X_test; [contradiction | simpl length; lia]. }
  unfold np.true_divide.
  destruct (Z.eqb_spec (np.sum (np.logical_not mask) + np.sum mask) 0) as [Hz|Hnz];
    [lia|].
  eexists; eexists. split; [reflexivity|]. split; [reflexivity|].
  rewrite inject_Z_plus.
  assert (Hq : ~ inject_Z (np.sum (np.logical_not mask)) + inject_Z (np.sum mask) == 0).
  { rewrite <- inject_Z_plus. intros H. apply Hnz.
    apply (proj1 (inject_Z_injective _ 0%Z)) in H. exact H. }
  field. exact Hq.
Qed.

(** C3.  For every classifier and every test set with as many labels as
    feature rows: when the tally produces a result, the prediction at each
    position of the test set is the prediction the classifier gives that row
    on its own, the incorrect count is the number of positions where
    prediction and label differ as booleans and the correct count the number
    where they agree; when it raises, the exception is the one [predict]
    raised; and it does produce a result once the test set is not empty and
    the classifier holds at least [n_neighbors] training rows. *)
Theorem evaluate_counts_mismatches (KNC : Fitted) (X_test : list (list Q))
    (y_test : list bool) :
  length X_test = length y_test ->
  match evaluate KNC X_test y_test with
  | Ok r =>
      exists preds,
        predict KNC X_test = Ok preds /\
        length preds = length X_test /\
        (forall i x, nth_error X_test i = Some x ->
           exists p, nth_error preds i = Some p /\ predict KNC [x] = Ok [p]) /\
        incorrect r = Z.of_nat (length (filter differs (combine preds y_test))) /\
        correct r = Z.of_nat (length (filter agrees (combine preds y_test)))
  | Raise e => predict KNC X_test = Raise e
  end /\
  (X_test <> [] ->
   (n_neighbors (params KNC) <= Z.of_nat (length (fit_X KNC)))%Z ->
   exists r, evaluate KNC X_test y_test = Ok r).
Proof.
  intros Hlen. split.
  - destruct (predict KNC X_test) as [preds|e] eqn:Hp.
    + destruct (evaluate_eq KNC X_test y_test preds Hlen Hp) as [_ Heq].
      rewrite Heq. exists preds.
      pose proof (predict_Ok_inv _ _ _ Hp) as [HX [Hk Hpreds]].
      split; [reflexivity|]. split; [rewrite Hpreds; apply length_map|].
      split; [|split].
      * intros i x Hx. exists (predict_row KNC x). split.
        -- rewrite Hpreds, nth_error_map, Hx. reflexivity.
        -- rewrite predict_total by (try discriminate; exact Hk). reflexivity.
      * simpl. rewrite <- sum_filter. f_equal. apply map_ext.
        intros [p t]; destruct p, t; reflexivity.
      * simpl. unfold np.logical_not. rewrite map_map, <- sum_filter.
        f_equal. apply map_ext. intros [p t]; destruct p, t; reflexivity.
    + unfold evaluate. rewrite Hp. reflexivity.
  - intros HX Hk.
    destruct (evaluate_eq KNC X_test y_test _ Hlen (predict_total KNC X_test HX Hk))
      as [_ Heq].
    rewrite Heq. eexists; reflexivity.
Qed.

End Evaluation.

(** Scenario 2: [scenario2] is what [fit] returns on the two points. *)
Example scenario2_fit :
  fit {| n_neighbors := 1; metric := Euclidean |} [[0]; [10]] [true; false] = Ok scenario2.
Proof. reflexivity. Qed.

Lemma evaluate_percentages_sum_witness :
  length [[1]; [9]] = length [true; true] /\
  evaluate scenario2 [[1]; [9]] [true; true]
    = Ok {| correct := 1; incorrect := 1;
            percentage_correct := np.Fin (100 # 2);
            percentage_incorrect := np.Fin (100 # 2) |} /\
  (1 + 1 = Z.of_nat 2)%Z /\
  exists pc pi, np.Fin (100 # 2) = np.Fin pc /\ np.Fin (100 # 2) = np.Fin pi /\ pc + pi == 100.
Proof.
  split; [reflexivity|]. split; [vm_compute; reflexivity|].
  apply (evaluate_percentages_sum scenario2 [[1]; [9]] [true; true]
           {| correct := 1; incorrect := 1;
              percentage_correct := np.Fin (100 # 2);
              percentage_incorrect := np.Fin (100 # 2) |});
    [reflexivity | vm_compute; reflexivity].
Defined.

Lemma evaluate_counts_mismatches_witness :
  match evaluate scenario2 [[1]; [9]] [true; true] with
  | Ok r =>
      exists preds,
        predict scenario2 [[1]; [9]] = Ok preds /\
        length preds = 2%nat /\
        (forall i x, nth_error [[1]; [9]] i = Some x ->
           exists p, nth_error preds i = Some p /\ predict scenario2 [x] = Ok [p]) /\
        incorrect r = Z.of_nat (length (filter differs (combine preds [true; true]))) /\
        correct r = Z.of_nat (length (filter agrees (combine preds [true; true])))
  | Raise e => predict scenario2 [[1]; [9]] = Raise e
  end /\
  ([[1]; [9]] <> [] ->
   (n_neighbors (params scenario2) <= Z.of_nat (length (fit_X scenario2)))%Z ->
   exists r, evaluate scenario2 [[1]; [9]] [true; true] = Ok r).
Proof.
  apply (evaluate_counts_mismatches scenario2 [[1]; [9]] [true; true]). reflexivity.
Defined.

(** ** Train/test splits *)

Lemma take_total {A : Type} (l : list A) (idxs : list nat) :
  (forall i, In i idxs -> (i < length l)%nat) ->
  exists rows,
    np.take l idxs = Ok rows /\
    length rows = length idxs /\
    (forall k i, nth_error idxs k = Some i -> nth_error rows k = nth_error l i).
Proof.
  induction idxs as [|i idxs IH]; intros Hin.
  - exists []. repeat split. intros [|k] i H; discriminate.
  - destruct IH as [rows [Hrows [Hlen Hnth]]].
    { intros j Hj. apply Hin. right; exact Hj. }
    destruct (nth_error l i) as [a|] eqn:Ha.
    + exists (a :: rows). unfold np.take in *. simpl. rewrite Ha. simpl.
      rewrite Hrows. simpl. repeat split.
      * f_equal; exact Hlen.
      * intros [|k] j H; simpl in *.
        -- inversion H; subst. symmetry; exact Ha.
        -- apply Hnth, H.
    + apply nth_error_None in Ha. specialize (Hin i (or_introl eq_refl)). lia.
Qed.

Lemma take_rows {A : Type} (l : list A) (idxs : list nat) (rows : list A) :
  np.take l idxs = Ok rows -> rows = flat_map (row_at l) idxs.
Proof.
  revert rows; induction idxs as [|i idxs IH]; intros rows H.
  - inversion H; reflexivity.
  - unfold np.take in H. cbn [mapM] in H.
    apply bind_Ok_inv in H as [a [Ha H]].
    apply bind_Ok_inv in H as [rest [Hrest H]].
    inversion H; subst. cbn [flat_map]. unfold row_at at 1.
    destruct (nth_error l i); [|discriminate]. inversion Ha; subst.
    simpl. f_equal. apply IH. exact Hrest.
Qed.

Lemma rows_of_all_positions {A : Type} (pre l : list A) :
  flat_map (row_at (pre ++ l)) (seq (length pre) (length l)) = l.
Proof.
  revert pre; induction l as [|a l IH]; intros pre; [reflexivity|].
  cbn [length seq flat_map]. unfold row_at at 1.
  rewrite nth_error_app2 by lia. rewrite Nat.sub_diag. cbn [nth_error app].
  f_equal. specialize (IH (pre ++ [a])).
  rewrite <- app_assoc, length_app in IH. cbn [length app] in IH.
  rewrite Nat.add_1_r in IH. exact IH.
Qed.

Lemma take_map {A B : Type} (f : A -> B) (l : list A) (idxs : list nat) (rows : list A) :
  np.take l idxs = Ok rows -> np.take (map f l) idxs = Ok (map f rows).
Proof.
  revert rows; induction idxs as [|i idxs IH]; intros rows H.
  - inversion H; reflexivity.
  - unfold np.take in *. cbn [mapM] in *.
    apply bind_Ok_inv in H as [a [Ha H]].
    apply bind_Ok_inv in H as [rest [Hrest H]].
    inversion H; subst. rewrite nth_error_map.
    destruct (nth_error l i); [|discriminate]. inversion Ha; subst.
    cbn [option_map bind]. rewrite (IH _ Hrest). reflexivity.
Qed.


Section SplitFacts.

Context {RS : RandomState}.

Lemma draw_permutation_perm (random_state : option Z) (g : rng_state) (n : nat) :
  Permutation (fst (draw_permutation random_state g n)) (seq 0 n).
Proof. destruct random_state; simpl; apply permutation_perm. Qed.

Lemma n_test_of_bounds (test_size : Q) (n : nat) :
  0 < test_size -> test_size < 1 -> (0 < n)%nat ->
  (1 <= n_test_of test_size n <= n)%nat /\
  test_size * inject_Z (Z.of_nat n) <= inject_Z (Z.of_nat (n_test_of test_size n)) /\
  inject_Z (Z.of_nat (n_test_of test_size n)) < test_size * inject_Z (Z.of_nat n) + 1.
Proof.
  intros Hpos Hlt Hn. unfold n_test_of.
  set (N := inject_Z (Z.of_nat n)).
  assert (HN : 0 < N).
  { unfold N. rewrite <- (Zlt_Qlt 0). lia. }
  set (x := test_size * N).
  assert (Hx0 : 0 < x) by (apply Qmult_lt_0_compat; assumption).
  assert (HxN : x <= N).
  { unfold x. setoid_replace N with (1 * N) at 2 by ring.
    apply Qmult_le_compat_r; [apply Qlt_le_weak, Hlt | apply Qlt_le_weak, HN]. }
  pose proof (Qle_ceiling x) as Hc1.
  pose proof (Qceiling_lt x) as Hc2.
  assert (Hcpos : (0 < Qceiling x)%Z).
  { rewrite (Zlt_Qlt 0). eapply Qlt_le_trans; [exact Hx0 | exact Hc1]. }
  assert (Hcn : (Qceiling x <= Z.of_nat n)%Z).
  { rewrite <- (Qceiling_Z (Z.of_nat n)). apply Qceiling_resp_le. exact HxN. }
  rewrite Z2Nat.id by lia.
  split; [lia|]. split; [exact Hc1|].
  assert (Heq : inject_Z (Qceiling x - 1) == inject_Z (Qceiling x) - 1).
  { unfold Z.sub. rewrite inject_Z_plus, inject_Z_opp. reflexivity. }
  rewrite Heq in Hc2. lra.
Qed.

Lemma shuffle_split_partition (test_size : Q) (random_state : option Z) (g : rng_state)
    (n : nat) :
  (n_test_of test_size n <= n)%nat ->
  let '((ind_train, ind_test), _) := shuffle_split test_size random_state g n in
  Permutation (ind_test ++ ind_train) (seq 0 n) /\
  length ind_test = n_test_of test_size n /\
  (length ind_train + length ind_test = n)%nat.
Proof.
  intros Hle. unfold shuffle_split.
  pose proof (draw_permutation_perm random_state g n) as Hperm.
  destruct (draw_permutation random_state g n) as [perm g']. simpl in Hperm.
  assert (Hlen : length perm = n).
  { rewrite (Permutation_length Hperm). apply length_seq. }
  rewrite (firstn_all2 (skipn (n_test_of test_size n) perm))
    by (rewrite length_skipn; lia).
  rewrite firstn_skipn. split; [exact Hperm|].
  rewrite length_firstn, length_skipn, Hlen. lia.
Qed.

Lemma train_test_split_seeded {A B : Type} (features : list A) (targets : list B)
    (test_size : Q) (s : Z) (g : rng_state) :
  train_test_split features targets test_size (Some s) g =
  '(p, _) <- train_test_split features targets test_size (Some s) (seed s) ;; Ok (p, g).
Proof.
  unfold train_test_split.
  destruct (negb (length features =? length targets)%nat); [reflexivity|].
  destruct (Qle_bool test_size 0 || Qle_bool 1 test_size); [reflexivity|].
  unfold shuffle_split, draw_permutation.
  destruct (permutation (seed s) (length features)) as [perm s']. simpl.
  destruct (np.take features _); [|reflexivity]. simpl.
  destruct (np.take features _); [|reflexivity]. simpl.
  destruct (np.take targets _); [|reflexivity]. simpl.
  destruct (np.take targets _); reflexivity.
Qed.

(** C4 (as amended).  Every split of the trial loops passes
    [random_state=ii]: it is [train_test_split] with an integer seed.  Such
    a call draws nothing from the process-wide generator (its partitions are
    the same whatever that generator's state, and it leaves that state as it
    found it), so two calls with the same rows, test fraction and seed return
    the same partitions, or raise the same exception. *)
Theorem trial_splits_seeded (features : list (list Q)) (targets : list bool)
    (test_size : Q) (s : Z) :
  trial_split features targets s = train_test_split features targets (1 # 10) (Some s) /\
  ambient_free (train_test_split features targets test_size (Some s)) /\
  (forall g p g', train_test_split features targets test_size (Some s) g = Ok (p, g') ->
                  g' = g) /\
  (forall g1 g2,
     match train_test_split features targets test_size (Some s) g1,
           train_test_split features targets test_size (Some s) g2 with
     | Ok (p1, _), Ok (p2, _) => p1 = p2
     | Raise e1, Raise e2 => e1 = e2
     | _, _ => False
     end).
Proof.
  split; [reflexivity|]. split; [|split].
  - intros g1 g2.
    rewrite (train_test_split_seeded features targets test_size s g1).
    rewrite (train_test_split_seeded features targets test_size s g2).
    destruct (train_test_split features targets test_size (Some s) (seed s))
      as [[p g0]|e]; reflexivity.
  - intros g p g' H. rewrite train_test_split_seeded in H.
    destruct (train_test_split features targets test_size (Some s) (seed s))
      as [[p0 g0]|e]; simpl in H; [inversion H; reflexivity | discriminate].
  - intros g1 g2.
    rewrite (train_test_split_seeded features targets test_size s g1).
    rewrite (train_test_split_seeded features targets test_size s g2).
    destruct (train_test_split features targets test_size (Some s) (seed s))
      as [[p g0]|e]; reflexivity.
Qed.


Lemma shuffle_split_at (test_size : Q) (random_state : option Z) (g : rng_state)
    (n : nat) :
  shuffle_split test_size random_state g n
  = split_at (n_test_of test_size n) random_state g n.
Proof. reflexivity. Qed.


Lemma tenths_from_sound (count : nat) (n0 n : Z) :
  tenths_from count n0 = true ->
  (n0 <= n < n0 + Z.of_nat count)%Z -> tenth_is_ceiling n = true.
Proof.
  revert n0; induction count as [|count IH]; intros n0 H Hn; [lia|].
  cbn [tenths_from] in H. apply andb_prop in H as [H0 H].
  destruct (Z.eq_dec n n0) as [->|Hne]; [exact H0|].
  apply (IH (n0 + 1)%Z H). lia.
Qed.

Lemma tenths_upto_50000 : tenths_from (Z.to_nat 20000) 1 = true.
Proof. vm_cast_no_check (eq_refl true). Qed.

(** Python's [ceil(0.1 * n)] for tables of up to 20000 rows. *)
Lemma ceil_tenth (n : Z) :
  (1 <= n <= 20000)%Z ->
  math.ceil (PrimFloat.mul (np.literal64 (1 # 10)) (np.float64 n))
  = Ok ((n + 9) / 10)%Z.
Proof.
  intros Hn.
  assert (H : tenth_is_ceiling n = true).
  { apply (tenths_from_sound _ 1 n tenths_upto_50000).
    rewrite Z2Nat.id by lia. lia. }
  unfold tenth_is_ceiling in H.
  destruct (math.ceil (PrimFloat.mul (np.literal64 (1 # 10)) (np.float64 n)))
    as [c|e]; [|discriminate].
  apply Z.eqb_eq in H. rewrite H. reflexivity.
Qed.


End SplitFacts.

(** The split of line 381 passes no [random_state]: with the rotating
    generator its partitions differ between two states of the process-wide
    generator, for the same rows and the same test fraction. *)
Lemma example_split_reads_ambient_state :
  ~ ambient_free (example_split (RS := rotating) demo_features demo_targets).
Proof.
  intros H. specialize (H 0%nat 1%nat). vm_compute in H. discriminate H.
Qed.



(** The split of trial 3 on the eleven rows: two test rows, nine training
    rows, the ambient generator state unchanged. *)
Example demo_split :
  trial_split (RS := rotating) demo_features demo_targets 3 0%nat
  = Ok (([[6]; [7]; [8]; [9]; [10]; [11]; [1]; [2]; [3]], [[4]; [5]],
         [true; true; true; true; true; false; true; true; true], [true; true]),
        0%nat).
Proof. vm_compute. reflexivity. Qed.

(** ** The Mahalanobis metric *)

Section MahalanobisFacts.

Context {RS : RandomState} {NS : NeighborSearch} {NU : Numerics}.

Lemma fit_Ok_inv (KNC0 : KNeighborsClassifier) (X : list (list Q)) (y : list bool)
    (KNC : Fitted) :
  fit KNC0 X y = Ok KNC ->
  length X = length y /\ X <> [] /\ (0 < n_neighbors KNC0)%Z /\
  KNC = {| params := KNC0; fit_X := X; fit_y := y; classes_ := unique y |}.
Proof.
  unfold fit.
  destruct (Nat.eqb_spec (length X) (length y)) as [Hlen|Hlen]; simpl; [|discriminate].
  destruct X as [|x X]; [discriminate|]. simpl Nat.eqb. cbv iota.
  destruct (Z.leb_spec (n_neighbors KNC0) 0) as [Hk|Hk]; [discriminate|].
  intros H; inversion H. repeat split; try assumption; discriminate.
Qed.

Lemma mahalanobis_fit_Ok_inv (X_train : list (list Q)) (y_train : list bool)
    (KNC : Fitted) :
  mahalanobis_fit X_train y_train = Ok KNC ->
  exists inv_cov,
    linalg_inv (DataFrame_cov X_train) = Ok inv_cov /\
    metric (params KNC) = Mahalanobis inv_cov /\
    fit_X KNC = X_train /\ fit_y KNC = y_train.
Proof.
  unfold mahalanobis_fit. intros H.
  apply bind_Ok_inv in H as [inv_cov [Hinv H]].
  apply fit_Ok_inv in H as [_ [_ [_ ->]]].
  exists inv_cov. repeat split. exact Hinv.
Qed.

(** A singular-matrix exception of the inverse ends the fit, and with it the
    pass of the loop, before any classifier exists. *)
Lemma mahalanobis_fit_inv_raises (X_train : list (list Q)) (y_train : list bool) (e : exn) :
  linalg_inv (DataFrame_cov X_train) = Raise e ->
  mahalanobis_fit X_train y_train = Raise e.
Proof. intros H. unfold mahalanobis_fit. rewrite H. reflexivity. Qed.

Lemma trial_Ok_inv (fit_train : list (list Q) -> list bool -> result Fitted)
    (features : list (list Q)) (targets : list bool) (ii : Z) (g h : rng_state)
    (KNC : Fitted) (r : EvaluationResult) :
  trial fit_train features targets ii g = Ok ((KNC, r), h) ->
  exists X_train X_test y_train y_test,
    trial_split features targets ii g = Ok ((X_train, X_test, y_train, y_test), h) /\
    fit_train X_train y_train = Ok KNC /\
    evaluate KNC X_test y_test = Ok r.
Proof.
  unfold trial. intros H.
  apply bind_Ok_inv in H as [[[[[X_train X_test] y_train] y_test] g'] [Hsplit H]].
  apply bind_Ok_inv in H as [KNC' [Hfit H]].
  apply bind_Ok_inv in H as [r' [Hev H]].
  inversion H; subst.
  exists X_train, X_test, y_train, y_test. repeat split; assumption.
Qed.

(** C6.  Take two passes of the Mahalanobis loop, on any tables, seeds and
    generator states, whose splits return the same training rows and
    otherwise arbitrary test rows and labels.  If both passes complete, the
    metric of the first classifier is the Mahalanobis metric whose matrix is
    the inverse of the covariance of those training rows, and the second
    classifier has the same metric. *)
Theorem mahalanobis_metric_from_training_rows
    (features1 features2 : list (list Q)) (targets1 targets2 : list bool)
    (ii1 ii2 : Z) (g1 g2 g1' g2' h1 h2 : rng_state)
    (X_train X_test1 X_test2 : list (list Q))
    (y_train1 y_train2 y_test1 y_test2 : list bool)
    (KNC1 KNC2 : Fitted) (r1 r2 : EvaluationResult) :
  trial_split features1 targets1 ii1 g1 = Ok ((X_train, X_test1, y_train1, y_test1), g1') ->
  trial_split features2 targets2 ii2 g2 = Ok ((X_train, X_test2, y_train2, y_test2), g2') ->
  mahalanobis_trial features1 targets1 ii1 g1 = Ok ((KNC1, r1), h1) ->
  mahalanobis_trial features2 targets2 ii2 g2 = Ok ((KNC2, r2), h2) ->
  (exists inv_cov,
     linalg_inv (DataFrame_cov X_train) = Ok inv_cov /\
     metric (params KNC1) = Mahalanobis inv_cov) /\
  metric (params KNC1) = metric (params KNC2).
Proof.
  intros Hs1 Hs2 Ht1 Ht2.
  apply trial_Ok_inv in Ht1 as [Xa [Xta [ya [yta [Hs1' [Hfit1 _]]]]]].
  apply trial_Ok_inv in Ht2 as [Xb [Xtb [yb [ytb [Hs2' [Hfit2 _]]]]]].
  rewrite Hs1 in Hs1'. inversion Hs1'; subst; clear Hs1'.
  rewrite Hs2 in Hs2'. inversion Hs2'; subst; clear Hs2'.
  apply mahalanobis_fit_Ok_inv in Hfit1 as [inv1 [Hinv1 [Hm1 _]]].
  apply mahalanobis_fit_Ok_inv in Hfit2 as [inv2 [Hinv2 [Hm2 _]]].
  rewrite Hinv1 in Hinv2. inversion Hinv2; subst inv2.
  split.
  - exists inv1. split; assumption.
  - rewrite Hm1, Hm2. reflexivity.
Qed.

End MahalanobisFacts.

Lemma mahalanobis_metric_from_training_rows_witness :
  exists KNC1 KNC2 r1 r2,
    mahalanobis_trial (RS := rotating) maha_features1 maha_targets 0 0%nat
      = Ok ((KNC1, r1), 0%nat) /\
    mahalanobis_trial (RS := rotating) maha_features2 maha_targets 0 0%nat
      = Ok ((KNC2, r2), 0%nat) /\
    (exists inv_cov,
       linalg_inv (DataFrame_cov maha_rows) = Ok inv_cov /\
       metric (params KNC1) = Mahalanobis inv_cov) /\
    metric (params KNC1) = metric (params KNC2).
Proof.
  do 4 eexists.
  split; [vm_compute; reflexivity|].
  split; [vm_compute; reflexivity|].
  eapply (mahalanobis_metric_from_training_rows (RS := rotating)
            maha_features1 maha_features2 maha_targets maha_targets 0 0
            0%nat 0%nat 0%nat 0%nat 0%nat 0%nat
            maha_rows [[0; 0; 0]] [[5; 5; 5]]
            (tl maha_targets) (tl maha_targets) [true] [true]).
  - vm_compute. reflexivity.
  - vm_compute. reflexivity.
  - vm_compute. reflexivity.
  - vm_compute. reflexivity.
Defined.

(** ** Prediction *)

Section PredictFacts.

Context {NS : NeighborSearch}.

Lemma predict_proba_total (KNC : Fitted) (X : list (list Q)) :
  X <> [] ->
  (n_neighbors (params KNC) <= Z.of_nat (length (fit_X KNC)))%Z ->
  predict_proba KNC X = Ok (map (proba_row KNC) X).
Proof.
  intros HX Hk. unfold predict_proba. rewrite kneighbors_total by assumption.
  simpl. rewrite map_map. reflexivity.
Qed.

Lemma unique_both (y : list bool) : In true y -> In false y -> unique y = [false; true].
Proof.
  intros Ht Hf. unfold unique.
  assert (H1 : existsb negb y = true).
  { apply existsb_exists. exists false. split; [exact Hf | reflexivity]. }
  assert (H2 : existsb (fun b => b) y = true).
  { apply existsb_exists. exists true. split; [exact Ht | reflexivity]. }
  rewrite H1, H2. reflexivity.
Qed.

Lemma count_occ_bool (l : list bool) :
  (count_occ bool_dec l false + count_occ bool_dec l true = length l)%nat.
Proof.
  induction l as [|b l IH]; [reflexivity|].
  destruct b; simpl; lia.
Qed.

Lemma nearest_singleton (m : Metric) (X : list (list Q)) (q : list Q) (nbrs : list nat) :
  k_nearest m X q 1 nbrs ->
  exists i, nbrs = [i] /\ (i < length X)%nat /\
            forall j, (j < length X)%nat -> j <> i ->
                      dist2 m (nth i X []) q <= dist2 m (nth j X []) q.
Proof.
  intros [Hlen [_ [Hin Hle]]].
  destruct nbrs as [|i [|i' nbrs]]; try discriminate.
  exists i. split; [reflexivity|]. split; [apply Hin; left; reflexivity|].
  intros j Hj Hne. apply Hle; [left; reflexivity | exact Hj |].
  intros [H|[]]. apply Hne. symmetry; exact H.
Qed.


End PredictFacts.


(** The binary64 distances of the brute-force search need not tell a
    nearer row from a farther one: from the query [[100000004]] the rows
    [[100000005]] and [[100000004]] both come out at distance 0, although
    the first is at squared distance 1.  These numbers are outside
    [exact_rows]. *)
Example binary64_distances_coincide :
  euclidean_distances64 [np.float64 100000004] [np.float64 100000005] = PrimFloat.zero /\
  euclidean_distances64 [np.float64 100000004] [np.float64 100000004] = PrimFloat.zero /\
  dist2 Euclidean [100000005] [100000004] == 1 /\
  exact_rows [[100000005]; [100000004]] [100000004] = false.
Proof. repeat split; vm_compute; reflexivity. Qed.


(** Two searches that both return nearest neighbours and order equidistant
    training rows differently give different predictions for [tie]. *)
Lemma equidistant_neighbours_left_to_search :
  predict (NS := brute) tie [[1]] = Ok [true] /\
  predict (NS := brute_rev) tie [[1]] = Ok [false].
Proof. split; vm_compute; reflexivity. Qed.

(** Scenario 3 of the specification: every prediction correct. *)
Example scenario3 :
  evaluate scenario2 [[1]; [9]; [2]] [true; false; true]
  = Ok {| correct := 3; incorrect := 0;
          percentage_correct := np.Fin (300 # 3);
          percentage_incorrect := np.Fin (0 # 3) |}.
Proof. vm_compute. reflexivity. Qed.

(** ** The percentages in binary64 *)

Lemma sums_are_100_sound (N c i : nat) :
  sums_are_100 N = true ->
  (0 < c + i <= N)%nat -> sum_is_100 (Z.of_nat c) (Z.of_nat i) = true.
Proof.
  unfold sums_are_100. intros Hall H.
  rewrite forallb_forall in Hall.
  assert (Hn : In (c + i)%nat (seq 1 N)) by (apply in_seq; lia).
  specialize (Hall _ Hn). rewrite forallb_forall in Hall.
  assert (Hc : In c (seq 0 (S (c + i)))) by (apply in_seq; lia).
  specialize (Hall _ Hc).
  replace (c + i - c)%nat with i in Hall by lia. exact Hall.
Qed.

Lemma sums_are_100_upto_500 : sums_are_100 500 = true.
Proof. vm_cast_no_check (eq_refl true). Qed.

(** X18.  For every tally of at most 500 test rows, the binary64
    percentages computed as in lines 406-407 add up to exactly [100.0]. *)
Lemma binary64_percentages_sum (c i : nat) :
  (0 < c + i <= 500)%nat -> sum_is_100 (Z.of_nat c) (Z.of_nat i) = true.
Proof. exact (sums_are_100_sound 500 c i sums_are_100_upto_500). Qed.

(** * Further properties of the cells *)

(** ** The tables (lines 119-127 and 213-215) *)

Lemma found_mask_same_members (df_all_complete found1 found2 : list Injection) :
  (forall id, In id (stamp_ids df_all_complete) ->
              (In id (stamp_ids found1) <-> In id (stamp_ids found2))) ->
  found_mask df_all_complete found1 = found_mask df_all_complete found2.
Proof.
  intros Hsame. rewrite !found_mask_pred. apply map_ext_in. intros r Hr.
  assert (Hid : In (stamp_id r) (stamp_ids df_all_complete)).
  { unfold stamp_ids. apply in_map. exact Hr. }
  specialize (Hsame _ Hid). rewrite <- !is_found_spec in Hsame.
  destruct (is_found found1 r), (is_found found2 r); try reflexivity.
  - symmetry. apply Hsame. reflexivity.
  - apply Hsame. reflexivity.
Qed.

(** X1.  The labels and the missed table depend on the recovered table only
    through which identifiers of the complete table it contains: two
    recovered tables that contain the same identifiers of the complete table
    (in any order, with any repetitions, with any further identifiers that
    the complete table does not have) give the same labelled table and the
    same missed table.  An identifier recovered but never injected is
    ignored without an error. *)
Theorem labels_depend_on_recovered_members
    (df_all_complete found1 found2 : list Injection) :
  (forall id, In id (stamp_ids df_all_complete) ->
              (In id (stamp_ids found1) <-> In id (stamp_ids found2))) ->
  df_all_found df_all_complete found1 = df_all_found df_all_complete found2 /\
  df_missed df_all_complete found1 = df_missed df_all_complete found2.
Proof.
  intros Hsame.
  rewrite !df_all_found_eq, !df_missed_eq.
  rewrite (found_mask_same_members _ _ _ Hsame). split; reflexivity.
Qed.

Lemma labels_depend_on_recovered_members_witness :
  df_all_found scenario1_all scenario1_found
  = df_all_found scenario1_all
      (injection 99 30 :: rev scenario1_found ++ scenario1_found) /\
  df_missed scenario1_all scenario1_found
  = df_missed scenario1_all
      (injection 99 30 :: rev scenario1_found ++ scenario1_found).
Proof.
  apply (labels_depend_on_recovered_members scenario1_all scenario1_found
           (injection 99 30 :: rev scenario1_found ++ scenario1_found)).
  intros id Hin. vm_compute in Hin.
  repeat (destruct Hin as [<- | Hin]; [vm_compute; intuition discriminate|]).
  contradiction.
Defined.

Lemma combine_map_same {A B C : Type} (f : A -> B) (h : A -> C) (l : list A) :
  combine (map f l) (map h l) = map (fun a => (f a, h a)) l.
Proof. induction l as [|a l IH]; simpl; [reflexivity | rewrite IH; reflexivity]. Qed.

Lemma filter_none {A : Type} (keep : A -> bool) (l : list A) :
  (forall a, In a l -> keep a = false) -> filter keep l = [].
Proof.
  induction l as [|a l IH]; simpl; intros H; [reflexivity|].
  rewrite (H a (or_introl eq_refl)). apply IH. intros b Hb. apply H. right; exact Hb.
Qed.

Lemma filter_all {A : Type} (keep : A -> bool) (l : list A) :
  (forall a, In a l -> keep a = true) -> filter keep l = l.
Proof.
  induction l as [|a l IH]; simpl; intros H; [reflexivity|].
  rewrite (H a (or_introl eq_refl)). f_equal. apply IH. intros b Hb. apply H. right; exact Hb.
Qed.

Lemma df_missed_filter (df_all_complete df_found_complete : list Injection) :
  df_missed df_all_complete df_found_complete =
  Ok (map relevant_cols
        (filter (fun r => negb (is_found df_found_complete r)) df_all_complete)).
Proof.
  rewrite df_missed_eq, found_mask_pred. unfold np.logical_not.
  rewrite map_map, select_pred. reflexivity.
Qed.

(** X2.  At the two extremes: with nothing recovered every row is labelled
    [false] and the missed table is the whole (restricted) complete table;
    with the complete table itself as the recovered table every row is
    labelled [true] and the missed table is empty.  Neither case raises,
    also for an empty complete table. *)
Theorem labels_at_the_extremes (df_all_complete : list Injection) :
  df_all_found df_all_complete []
    = Ok (map (fun r => (relevant_cols r, false)) df_all_complete) /\
  df_missed df_all_complete [] = Ok (df_all df_all_complete) /\
  df_all_found df_all_complete df_all_complete
    = Ok (map (fun r => (relevant_cols r, true)) df_all_complete) /\
  df_missed df_all_complete df_all_complete = Ok [].
Proof.
  assert (Hnone : forall r, is_found [] r = false) by reflexivity.
  assert (Hall : forall r, In r df_all_complete -> is_found df_all_complete r = true).
  { intros r Hr. apply is_found_spec. unfold stamp_ids. apply in_map. exact Hr. }
  repeat split.
  - rewrite df_all_found_eq, found_mask_pred. unfold df_all, pd.loc_all.
    rewrite combine_map_same. reflexivity.
  - rewrite df_missed_filter, filter_all by (intros; reflexivity). reflexivity.
  - rewrite df_all_found_eq, found_mask_pred. unfold df_all, pd.loc_all.
    rewrite combine_map_same. f_equal. apply map_ext_in.
    intros r Hr. rewrite (Hall r Hr). reflexivity.
  - rewrite df_missed_filter, filter_none; [reflexivity|].
    intros r Hr. rewrite (Hall r Hr). reflexivity.
Qed.

(** ** The 90/10 split (lines 381 and 396-397) *)

Lemma n_test_tenth (n : nat) : n_test_of (1 # 10) n = ((n + 9) / 10)%nat.
Proof.
  unfold n_test_of, Qceiling, Qfloor.
  cbn [Qmult Qopp Qnum Qden inject_Z].
  change (Z.pos (10 * 1)) with 10%Z.
  change (Z.of_nat 9) with 9%Z; change (Z.of_nat 10) with 10%Z.
  apply Nat2Z.inj. rewrite Nat2Z.inj_div, Nat2Z.inj_add.
  assert (H : (0 <= - (- (1 * Z.of_nat n) / 10))%Z).
  { pose proof (Z.div_mod (- (1 * Z.of_nat n)) 10 ltac:(lia)).
    pose proof (Z.mod_pos_bound (- (1 * Z.of_nat n)) 10 ltac:(lia)). lia. }
  rewrite Z2Nat.id by exact H.
  pose proof (Z.div_mod (- (1 * Z.of_nat n)) 10 ltac:(lia)).
  pose proof (Z.mod_pos_bound (- (1 * Z.of_nat n)) 10 ltac:(lia)).
  change (Z.of_nat 9) with 9%Z; change (Z.of_nat 10) with 10%Z.
  pose proof (Z.div_mod (Z.of_nat n + 9) 10 ltac:(lia)).
  pose proof (Z.mod_pos_bound (Z.of_nat n + 9) 10 ltac:(lia)).
  lia.
Qed.

Lemma tenth_le (n : nat) : ((n + 9) / 10 <= n)%nat.
Proof.
  pose proof (Nat.div_mod_eq (n + 9) 10).
  destruct n as [|n]; [reflexivity|]. lia.
Qed.

Section TenthCells.

Context {RS : RandomState}.

(** At the notebook's [test_size = 0.1], for tables of 2 to 20000 rows,
    before and from release 0.21 on alike, the split on binary64 numbers is
    the split on the rational [1 # 10]. *)
Lemma train_test_split64_tenth {A B : Type} (strict : bool) (features : list A)
    (targets : list B) (random_state : option Z) (g : rng_state) :
  (2 <= Z.of_nat (length features) <= 20000)%Z ->
  train_test_split64 strict features targets (np.literal64 (1 # 10)) random_state g
  = train_test_split features targets (1 # 10) random_state g.
Proof.
  intros Hn. unfold train_test_split64, train_test_split.
  destruct (negb (length features =? length targets)%nat); [reflexivity|].
  change (PrimFloat.leb (np.literal64 (1 # 10)) PrimFloat.zero
          || PrimFloat.leb PrimFloat.one (np.literal64 (1 # 10))) with false.
  change (Qle_bool (1 # 10) 0 || Qle_bool 1 (1 # 10)) with false. cbv iota.
  unfold n_test64. rewrite ceil_tenth by lia. cbn [bind].
  rewrite shuffle_split_at, n_test_tenth.
  assert (E : Z.to_nat ((Z.of_nat (length features) + 9) / 10)
              = ((length features + 9) / 10)%nat).
  { rewrite <- (Nat2Z.id ((length features + 9) / 10)). f_equal.
    rewrite Nat2Z.inj_div, Nat2Z.inj_add. reflexivity. }
  rewrite E.
  assert (Hs : (length features - (length features + 9) / 10 =? 0)%nat = false).
  { apply Nat.eqb_neq.
    pose proof (Nat.div_mod_eq (length features + 9) 10) as Hd.
    pose proof (Nat.mod_upper_bound (length features + 9) 10 ltac:(lia)) as Hm.
    lia. }
  rewrite Hs, Bool.andb_false_r. reflexivity.
Qed.

End TenthCells.

Section SplitCells.

Context {RS : RandomState}.

Lemma shuffle_split_seeded_state (test_size : Q) (s : Z) (g : rng_state) (n : nat) :
  snd (shuffle_split test_size (Some s) g n) = g.
Proof.
  unfold shuffle_split, draw_permutation.
  destruct (permutation (seed s) n); reflexivity.
Qed.

(** The positions a seeded 90/10 split takes, and what it returns. *)
Lemma trial_split_positions {A B : Type} (features : list A) (targets : list B)
    (ii : Z) (g : rng_state) :
  length features = length targets ->
  exists ind_train ind_test X_train X_test y_train y_test,
    shuffle_split (1 # 10) (Some ii) g (length features) = ((ind_train, ind_test), g) /\
    Permutation (ind_test ++ ind_train) (seq 0 (length features)) /\
    length ind_test = ((length features + 9) / 10)%nat /\
    length ind_train = (length features - (length features + 9) / 10)%nat /\
    np.take features ind_train = Ok X_train /\
    np.take features ind_test = Ok X_test /\
    np.take targets ind_train = Ok y_train /\
    np.take targets ind_test = Ok y_test /\
    length X_train = length ind_train /\ length X_test = length ind_test /\
    length y_train = length ind_train /\ length y_test = length ind_test /\
    train_test_split features targets (1 # 10) (Some ii) g
      = Ok ((X_train, X_test, y_train, y_test), g).
Proof.
  intros Hlen.
  pose proof (tenth_le (length features)) as Hle. rewrite <- n_test_tenth in Hle.
  pose proof (shuffle_split_partition (1 # 10) (Some ii) g (length features) Hle) as Hsplit.
  pose proof (shuffle_split_seeded_state (1 # 10) ii g (length features)) as Hg.
  unfold train_test_split. rewrite Hlen, Nat.eqb_refl. simpl negb. cbv iota.
  change (Qle_bool (1 # 10) 0 || Qle_bool 1 (1 # 10)) with false. cbv iota.
  rewrite <- Hlen.
  destruct (shuffle_split (1 # 10) (Some ii) g (length features))
    as [[ind_train ind_test] g'].
  simpl in Hg. subst g'.
  destruct Hsplit as [Hperm [Hntest Hsum]]. rewrite n_test_tenth in Hntest.
  assert (Hbound : forall i, In i (ind_test ++ ind_train) -> (i < length features)%nat).
  { intros i Hi. apply (Permutation_in _ Hperm), in_seq in Hi. lia. }
  destruct (take_total features ind_train) as [X_train [HXtr [LXtr _]]].
  { intros i Hi. apply Hbound, in_or_app. right; exact Hi. }
  destruct (take_total features ind_test) as [X_test [HXte [LXte _]]].
  { intros i Hi. apply Hbound, in_or_app. left; exact Hi. }
  destruct (take_total targets ind_train) as [y_train [Hytr [Lytr _]]].
  { intros i Hi. rewrite <- Hlen. apply Hbound, in_or_app. right; exact Hi. }
  destruct (take_total targets ind_test) as [y_test [Hyte [Lyte _]]].
  { intros i Hi. rewrite <- Hlen. apply Hbound, in_or_app. left; exact Hi. }
  exists ind_train, ind_test, X_train, X_test, y_train, y_test.
  rewrite HXtr, HXte, Hytr, Hyte. cbn [bind].
  repeat match goal with |- _ /\ _ => split end;
    first [reflexivity | assumption | lia].
Qed.

Lemma trial_split_mismatch {A B : Type} (features : list A) (targets : list B)
    (test_size : Q) (random_state : option Z) (g : rng_state) :
  length features <> length targets ->
  train_test_split features targets test_size random_state g = Raise ValueError.
Proof.
  intros H. unfold train_test_split.
  destruct (Nat.eqb_spec (length features) (length targets)); [contradiction | reflexivity].
Qed.

(** X3.  How the notebook's [test_size=0.1] rounds: for every table of at
    least two rows with one target per row and every seed, the split of a
    trial returns, leaves the process-wide generator as it was, and puts
    [(n + 9) / 10] rows (integer division: a tenth, rounded up) in the test
    part and the remaining rows in the training part, with as many targets
    as rows in each part; with a different number of targets than rows it
    raises [ValueError]. *)
Theorem trial_split_sizes (features : list (list Q)) (targets : list bool)
    (ii : Z) (g : rng_state) :
  (length features = length targets -> (2 <= length features)%nat ->
   exists X_train X_test y_train y_test,
     trial_split features targets ii g = Ok ((X_train, X_test, y_train, y_test), g) /\
     length X_test = ((length features + 9) / 10)%nat /\
     length X_train = (length features - (length features + 9) / 10)%nat /\
     length y_test = length X_test /\
     length y_train = length X_train) /\
  (length features <> length targets ->
   trial_split features targets ii g = Raise ValueError).
Proof.
  split.
  - intros Hlen _.
    destruct (trial_split_positions features targets ii g Hlen)
      as [it [ie [Xtr [Xte [ytr [yte H]]]]]].
    destruct H as [_ [_ [Le [Lt [_ [_ [_ [_ [LXtr [LXte [Lytr [Lyte Hok]]]]]]]]]]]].
    exists Xtr, Xte, ytr, yte. unfold trial_split.
    repeat split; [exact Hok | | | | ]; congruence.
  - intros Hne. apply trial_split_mismatch, Hne.
Qed.

End SplitCells.

Lemma trial_split_sizes_witness :
  exists X_train X_test y_train y_test,
    trial_split (RS := rotating) demo_features demo_targets 7 5%nat
      = Ok ((X_train, X_test, y_train, y_test), 5%nat) /\
    length X_test = 2%nat /\ length X_train = 9%nat /\
    length y_test = length X_test /\ length y_train = length X_train.
Proof.
  apply (proj1 (trial_split_sizes (RS := rotating) demo_features demo_targets 7 5%nat)).
  - reflexivity.
  - simpl; lia.
Defined.

(** ** The passes of the loops (lines 395-414, 493-516, 532-551) *)

Section Passes.

Context {RS : RandomState} {NS : NeighborSearch} {NU : Numerics}.

Lemma predict_raises (KNC : Fitted) (X : list (list Q)) :
  X = [] \/ (Z.of_nat (length (fit_X KNC)) < n_neighbors (params KNC))%Z ->
  predict KNC X = Raise ValueError.
Proof.
  intros H. unfold predict, kneighbors.
  destruct X as [|x X]; [reflexivity|]. simpl Nat.eqb. cbv iota.
  destruct H as [H|H]; [discriminate|].
  destruct (Z.ltb_spec (Z.of_nat (length (fit_X KNC))) (n_neighbors (params KNC)));
    [reflexivity | lia].
Qed.

Lemma evaluate_raises (KNC : Fitted) (X_test : list (list Q)) (y_test : list bool) :
  X_test = [] \/ (Z.of_nat (length (fit_X KNC)) < n_neighbors (params KNC))%Z ->
  evaluate KNC X_test y_test = Raise ValueError.
Proof. intros H. unfold evaluate. rewrite (predict_raises _ _ H). reflexivity. Qed.

Lemma fit_total (KNC0 : KNeighborsClassifier) (X : list (list Q)) (y : list bool) :
  length X = length y -> X <> [] -> (0 < n_neighbors KNC0)%Z ->
  fit KNC0 X y = Ok {| params := KNC0; fit_X := X; fit_y := y; classes_ := unique y |}.
Proof.
  intros Hlen HX Hk. unfold fit. rewrite Hlen, Nat.eqb_refl. simpl negb. cbv iota.
  rewrite <- Hlen. destruct X as [|x X]; [contradiction|]. simpl Nat.eqb. cbv iota.
  destruct (Z.leb_spec (n_neighbors KNC0) 0); [lia | reflexivity].
Qed.

Lemma fit_empty (KNC0 : KNeighborsClassifier) (y : list bool) :
  fit KNC0 [] y = Raise ValueError.
Proof. unfold fit. destruct y; reflexivity. Qed.

(** Fitting nine neighbours on the training part and tallying the test
    part: a result with nine training rows or more, [ValueError] with
    fewer. *)
Lemma fit_then_evaluate (m : Metric) (X_train X_test : list (list Q))
    (y_train y_test : list bool) :
  length X_train = length y_train ->
  length X_test = length y_test ->
  (X_test = [] -> X_train = []) ->
  ((9 <= length X_train)%nat ->
   exists r,
     (KNC <- fit {| n_neighbors := num_neighbors; metric := m |} X_train y_train ;;
      r <- evaluate KNC X_test y_test ;; Ok (KNC, r))
     = Ok ({| params := {| n_neighbors := num_neighbors; metric := m |};
              fit_X := X_train; fit_y := y_train; classes_ := unique y_train |}, r) /\
     (correct r + incorrect r = Z.of_nat (length X_test))%Z) /\
  ((length X_train < 9)%nat ->
   (KNC <- fit {| n_neighbors := num_neighbors; metric := m |} X_train y_train ;;
    r <- evaluate KNC X_test y_test ;; Ok (KNC, r))
   = Raise ValueError).
Proof.
  intros Htr Hte Hempty. split.
  - intros H9.
    assert (HXtr : X_train <> []) by (destruct X_train; [simpl in H9; lia | discriminate]).
    assert (HXte : X_test <> []) by (intros E; apply HXtr, Hempty, E).
    rewrite (fit_total _ _ _ Htr HXtr) by reflexivity. cbn [bind].
    set (KNC := {| params := _; fit_X := X_train |}).
    assert (Hk : (n_neighbors (params KNC) <= Z.of_nat (length (fit_X KNC)))%Z).
    { simpl. unfold num_neighbors. lia. }
    destruct (evaluate_eq KNC X_test y_test _ Hte (predict_total KNC X_test HXte Hk))
      as [Hmask Heq].
    rewrite Heq. cbn [bind]. eexists. split; [reflexivity|].
    cbn [correct incorrect]. rewrite sum_logical_not, Hmask. reflexivity.
  - intros H9.
    destruct X_train as [|x X_train]; [rewrite fit_empty; reflexivity|].
    rewrite (fit_total _ _ _ Htr) by (try discriminate; reflexivity). cbn [bind].
    rewrite evaluate_raises; [reflexivity|].
    right. cbn [fit_X params n_neighbors]. unfold num_neighbors. lia.
Qed.

Lemma tenth_rest (n : nat) :
  ((10 <= n)%nat -> (9 <= n - (n + 9) / 10)%nat) /\
  ((n < 10)%nat -> (n - (n + 9) / 10 < 9)%nat) /\
  (((n + 9) / 10 = 0)%nat -> n = 0%nat).
Proof.
  pose proof (Nat.div_mod_eq (n + 9) 10) as H.
  pose proof (Nat.mod_upper_bound (n + 9) 10 ltac:(lia)) as Hm.
  repeat split; intros; lia.
Qed.

(** What one pass returns, for a way of fitting that raises [e] or yields
    a nine-neighbour classifier with metric [m] on the training part. *)
Lemma trial_outcomes (fit_train : list (list Q) -> list bool -> result Fitted)
    (features : list (list Q)) (targets : list bool) (ii : Z) (g : rng_state) :
  length features = length targets ->
  exists X_train X_test y_train y_test,
    trial_split features targets ii g = Ok ((X_train, X_test, y_train, y_test), g) /\
    length X_test = ((length features + 9) / 10)%nat /\
    (forall e, fit_train X_train y_train = Raise e ->
               trial fit_train features targets ii g = Raise e) /\
    (forall m,
       fit_train X_train y_train
         = fit {| n_neighbors := num_neighbors; metric := m |} X_train y_train ->
       ((10 <= length features)%nat ->
        exists KNC r,
          trial fit_train features targets ii g = Ok ((KNC, r), g) /\
          metric (params KNC) = m /\ fit_X KNC = X_train /\ fit_y KNC = y_train /\
          (correct r + incorrect r = Z.of_nat ((length features + 9) / 10))%Z) /\
       ((length features < 10)%nat ->
        trial fit_train features targets ii g = Raise ValueError)).
Proof.
  intros Hlen.
  destruct (trial_split_positions features targets ii g Hlen)
    as [it [ie [Xtr [Xte [ytr [yte H]]]]]].
  destruct H as [_ [_ [Le [Lt [_ [_ [_ [_ [LXtr [LXte [Lytr [Lyte Hok]]]]]]]]]]]].
  exists Xtr, Xte, ytr, yte.
  assert (Hsplit : trial_split features targets ii g = Ok ((Xtr, Xte, ytr, yte), g))
    by exact Hok.
  split; [exact Hsplit|]. split; [congruence|].
  destruct (tenth_rest (length features)) as [Hge [Hlt Hzero]].
  split.
  - intros e He. unfold trial. rewrite Hsplit. cbn [bind]. rewrite He. reflexivity.
  - intros m Hfit.
    destruct (fit_then_evaluate m Xtr Xte ytr yte) as [Hok9 Hraise]; try congruence.
    { intros E. assert (length features = 0%nat).
      { apply Hzero. rewrite <- Le, <- LXte, E. reflexivity. }
      destruct Xtr; [reflexivity|]. simpl in LXtr. lia. }
    split.
    + intros H10. destruct Hok9 as [r [Hrun Hsum]]; [rewrite LXtr, Lt; apply Hge, H10|].
      eexists; exists r. unfold trial. rewrite Hsplit. cbn [bind]. rewrite Hfit.
      apply bind_Ok_inv in Hrun as [KNC [HKNC Hrun]]. rewrite HKNC. cbn [bind].
      apply bind_Ok_inv in Hrun as [r' [Hr' Hrun]]. rewrite Hr'. cbn [bind].
      inversion Hrun; subst. repeat split. rewrite Hsum, LXte, Le. reflexivity.
    + intros H10. unfold trial. rewrite Hsplit. cbn [bind]. rewrite Hfit.
      specialize (Hraise ltac:(rewrite LXtr, Lt; apply Hlt, H10)).
      destruct (fit _ Xtr ytr) as [KNC|e]; cbn [bind] in *;
        [|inversion Hraise; reflexivity].
      destruct (evaluate KNC Xte yte); cbn [bind] in *;
        [discriminate | inversion Hraise; reflexivity].
Qed.

(** X4.  A pass of the Euclidean loops succeeds exactly on tables of at
    least ten rows with one target per row: then it returns a classifier and
    a tally over the [(n + 9) / 10] test rows and leaves the process-wide
    generator as it was.  With fewer rows (too few training rows for nine
    neighbours, or nothing to fit) or with a different number of targets
    than rows it raises [ValueError], whatever the seed. *)
Theorem euclidean_trial_needs_ten_rows (features : list (list Q)) (targets : list bool)
    (ii : Z) (g : rng_state) :
  (length features = length targets /\ (10 <= length features)%nat ->
   exists KNC r,
     euclidean_trial features targets ii g = Ok ((KNC, r), g) /\
     (correct r + incorrect r = Z.of_nat ((length features + 9) / 10))%Z) /\
  (~ (length features = length targets /\ (10 <= length features)%nat) ->
   euclidean_trial features targets ii g = Raise ValueError).
Proof.
  destruct (Nat.eq_dec (length features) (length targets)) as [Hlen|Hlen].
  - destruct (trial_outcomes euclidean_fit features targets ii g Hlen)
      as [Xtr [Xte [ytr [yte [_ [_ [_ Hcases]]]]]]].
    destruct (Hcases Euclidean eq_refl) as [Hok Hraise].
    split.
    + intros [_ H10]. destruct (Hok H10) as [KNC [r [Hrun [_ [_ [_ Hsum]]]]]].
      exists KNC, r. split; assumption.
    + intros Hnot. apply Hraise. lia.
  - split; [intros [H _]; contradiction|].
    intros _. unfold euclidean_trial, trial, trial_split.
    rewrite trial_split_mismatch by exact Hlen. reflexivity.
Qed.

(** X5.  What a pass of the Mahalanobis loop does with a table of at least
    two rows that has one target per row: when [np.linalg.inv] raises on the
    covariance of the training rows the pass raises that exception, also
    when the table is too small for nine neighbours; when it returns a
    matrix the pass succeeds exactly on tables of at least ten rows, with
    that matrix as the classifier's metric, and raises [ValueError] on
    smaller ones. *)
Theorem mahalanobis_trial_outcomes (features : list (list Q)) (targets : list bool)
    (ii : Z) (g : rng_state) :
  length features = length targets ->
  (2 <= length features)%nat ->
  exists X_train X_test y_train y_test,
    trial_split features targets ii g = Ok ((X_train, X_test, y_train, y_test), g) /\
    match linalg_inv (DataFrame_cov X_train) with
    | Raise e => mahalanobis_trial features targets ii g = Raise e
    | Ok inv_cov =>
        ((10 <= length features)%nat ->
         exists KNC r,
           mahalanobis_trial features targets ii g = Ok ((KNC, r), g) /\
           metric (params KNC) = Mahalanobis inv_cov) /\
        ((length features < 10)%nat ->
         mahalanobis_trial features targets ii g = Raise ValueError)
    end.
Proof.
  intros Hlen _.
  destruct (trial_outcomes mahalanobis_fit features targets ii g Hlen)
    as [Xtr [Xte [ytr [yte [Hsplit [_ [Hfail Hcases]]]]]]].
  exists Xtr, Xte, ytr, yte. split; [exact Hsplit|].
  destruct (linalg_inv (DataFrame_cov Xtr)) as [inv_cov|e] eqn:Hinv.
  - destruct (Hcases (Mahalanobis inv_cov)) as [Hok Hraise].
    { unfold mahalanobis_fit. rewrite Hinv. reflexivity. }
    split; [|exact Hraise].
    intros H10. destruct (Hok H10) as [KNC [r [Hrun [Hm _]]]].
    exists KNC, r. split; assumption.
  - apply Hfail. unfold mahalanobis_fit. rewrite Hinv. reflexivity.
Qed.

End Passes.

Lemma euclidean_trial_needs_ten_rows_witness :
  exists KNC r,
    euclidean_trial (RS := rotating) demo_features demo_targets 4 0%nat
      = Ok ((KNC, r), 0%nat) /\
    (correct r + incorrect r = Z.of_nat ((length demo_features + 9) / 10))%Z.
Proof.
  apply (proj1 (euclidean_trial_needs_ten_rows (RS := rotating)
                  demo_features demo_targets 4 0%nat)).
  split; [reflexivity | simpl; lia].
Defined.

Lemma mahalanobis_trial_outcomes_witness :
  exists X_train X_test y_train y_test,
    trial_split (RS := rotating) maha_features1 maha_targets 0 0%nat
      = Ok ((X_train, X_test, y_train, y_test), 0%nat) /\
    match linalg_inv (DataFrame_cov X_train) with
    | Raise e => mahalanobis_trial (RS := rotating) maha_features1 maha_targets 0 0%nat
                 = Raise e
    | Ok inv_cov =>
        ((10 <= length maha_features1)%nat ->
         exists KNC r,
           mahalanobis_trial (RS := rotating) maha_features1 maha_targets 0 0%nat
             = Ok ((KNC, r), 0%nat) /\
           metric (params KNC) = Mahalanobis inv_cov) /\
        ((length maha_features1 < 10)%nat ->
         mahalanobis_trial (RS := rotating) maha_features1 maha_targets 0 0%nat
           = Raise ValueError)
    end.
Proof.
  apply (mahalanobis_trial_outcomes (RS := rotating) maha_features1 maha_targets 0 0%nat).
  - reflexivity.
  - simpl; lia.
Defined.

(** A table whose training covariance cannot be inverted: the second column
    repeats the first.  The pass raises [LinAlgError]. *)
Example mahalanobis_trial_singular :
  mahalanobis_trial (RS := rotating)
    (map (fun i => [inject_Z (Z.of_nat i); inject_Z (Z.of_nat i); 1]) (seq 0 12))
    (map Nat.even (seq 0 12)) 0 0%nat
  = Raise LinAlgError.
Proof. vm_compute. reflexivity. Qed.

(** ** The loops and the whole run *)

Section Loops.

Context {RS : RandomState} {NS : NeighborSearch} {NU : Numerics}.

Lemma for_each_ok {R : Type} (body : Z -> rng_state -> result (R * rng_state))
    (iis : list Z) (g : rng_state) :
  (forall ii, In ii iis -> exists r, body ii g = Ok (r, g)) ->
  exists rs,
    for_each body iis g = Ok (rs, g) /\
    length rs = length iis /\
    (forall r, In r rs -> exists ii, In ii iis /\ body ii g = Ok (r, g)).
Proof.
  induction iis as [|ii iis IH]; intros Hall.
  - exists []. repeat split. intros r [].
  - destruct (Hall ii (or_introl eq_refl)) as [r Hr].
    destruct IH as [rs [Hrs [Hlen Hin]]].
    { intros j Hj. apply Hall. right; exact Hj. }
    exists (r :: rs). cbn [for_each]. rewrite Hr. cbn [bind]. rewrite Hrs. cbn [bind].
    split; [reflexivity|]. split; [simpl; f_equal; exact Hlen|].
    intros r' [<- | Hr'].
    + exists ii. split; [left; reflexivity | exact Hr].
    + destruct (Hin r' Hr') as [j [Hj Hbody]]. exists j. split; [right; exact Hj | exact Hbody].
Qed.

Lemma for_each_raises_at_once {R : Type}
    (body : Z -> rng_state -> result (R * rng_state))
    (ii : Z) (rest : list Z) (g : rng_state) (e : exn) :
  body ii g = Raise e -> for_each body (ii :: rest) g = Raise e.
Proof. intros H. cbn [for_each]. rewrite H. reflexivity. Qed.

Lemma euclidean_loop_outcomes (features : list (list Q)) (targets : list bool)
    (g : rng_state) :
  (length features = length targets /\ (10 <= length features)%nat ->
   exists rs,
     euclidean_loop features targets g = Ok (rs, g) /\
     length rs = 10%nat /\
     (forall KNC r, In (KNC, r) rs ->
        metric (params KNC) = Euclidean /\
        (correct r + incorrect r = Z.of_nat ((length features + 9) / 10))%Z)) /\
  (~ (length features = length targets /\ (10 <= length features)%nat) ->
   euclidean_loop features targets g = Raise ValueError).
Proof.
  split.
  - intros [Hlen H10].
    destruct (for_each_ok (euclidean_trial features targets) (range 10) g)
      as [rs [Hrs [Hcount Hin]]].
    { intros ii _.
      destruct (trial_outcomes euclidean_fit features targets ii g Hlen)
        as [Xtr [Xte [ytr [yte [_ [_ [_ Hcases]]]]]]].
      destruct (proj1 (Hcases Euclidean eq_refl) H10) as [KNC [r [Hrun _]]].
      exists (KNC, r). exact Hrun. }
    exists rs. split; [exact Hrs|]. split; [exact Hcount|].
    intros KNC r Hr. destruct (Hin _ Hr) as [ii [_ Hrun]].
    destruct (trial_outcomes euclidean_fit features targets ii g Hlen)
      as [Xtr [Xte [ytr [yte [_ [_ [_ Hcases]]]]]]].
    destruct (proj1 (Hcases Euclidean eq_refl) H10)
      as [KNC' [r' [Hrun' [Hm [_ [_ Hsum]]]]]].
    unfold euclidean_trial in Hrun. rewrite Hrun' in Hrun. inversion Hrun; subst.
    split; assumption.
  - intros Hnot. unfold euclidean_loop.
    change (range 10) with (0%Z :: map Z.of_nat (seq 1 9)).
    apply for_each_raises_at_once.
    destruct (Nat.eq_dec (length features) (length targets)) as [Hlen|Hlen].
    + destruct (trial_outcomes euclidean_fit features targets 0 g Hlen)
        as [Xtr [Xte [ytr [yte [_ [_ [_ Hcases]]]]]]].
      apply (proj2 (Hcases Euclidean eq_refl)). lia.
    + unfold euclidean_trial, trial, trial_split.
      rewrite trial_split_mismatch by exact Hlen. reflexivity.
Qed.

(** X6.  The Euclidean loop over [range(10)] prints ten tallies, each over
    [(n + 9) / 10] test rows with a Euclidean classifier, and leaves the
    process-wide generator as it was, exactly when the table has at least
    ten rows and one target per row; otherwise the first pass already raises
    [ValueError] and the loop ends with it. *)
Theorem euclidean_loop_ten_tallies (features : list (list Q)) (targets : list bool)
    (g : rng_state) :
  (length features = length targets /\ (10 <= length features)%nat ->
   exists rs,
     euclidean_loop features targets g = Ok (rs, g) /\
     length rs = 10%nat /\
     (forall KNC r, In (KNC, r) rs ->
        metric (params KNC) = Euclidean /\
        (correct r + incorrect r = Z.of_nat ((length features + 9) / 10))%Z)) /\
  (~ (length features = length targets /\ (10 <= length features)%nat) ->
   euclidean_loop features targets g = Raise ValueError).
Proof. exact (euclidean_loop_outcomes features targets g). Qed.

Lemma labelled_columns_length (df_all_complete df_found_complete : list Injection) :
  exists df,
    df_all_found df_all_complete df_found_complete = Ok df /\
    length (four_features df) = length df_all_complete /\
    length (correlated_parameters df) = length df_all_complete /\
    length (found df) = length df_all_complete.
Proof.
  eexists. split; [apply df_all_found_eq|].
  unfold four_features, correlated_parameters, found. rewrite !length_map.
  rewrite length_combine. unfold df_all, pd.loc_all.
  rewrite length_map, found_mask_length, Nat.min_id. repeat split.
Qed.

(** X7.  From the pickled tables to the printed tallies: whatever the
    recovered table holds, the four-feature loop and the three-feature
    Euclidean loop each print ten tallies when the complete table has at
    least ten rows, and each raise [ValueError] when it has fewer.  Labelling
    and column selection never raise and never produce features and targets
    of different lengths. *)
Theorem run_needs_ten_injections (df_all_complete df_found_complete : list Injection)
    (g : rng_state) :
  ((10 <= length df_all_complete)%nat ->
   (exists rs, run_four_features df_all_complete df_found_complete g = Ok (rs, g) /\
               length rs = 10%nat) /\
   (exists rs, run_correlated df_all_complete df_found_complete g = Ok (rs, g) /\
               length rs = 10%nat)) /\
  ((length df_all_complete < 10)%nat ->
   run_four_features df_all_complete df_found_complete g = Raise ValueError /\
   run_correlated df_all_complete df_found_complete g = Raise ValueError).
Proof.
  destruct (labelled_columns_length df_all_complete df_found_complete)
    as [df [Hdf [L4 [L3 Lf]]]].
  unfold run_four_features, run_correlated. rewrite Hdf. cbn [bind].
  split.
  - intros H10. split.
    + destruct (proj1 (euclidean_loop_outcomes (four_features df) (found df) g))
        as [rs [Hrs [Hlen _]]]; [rewrite L4, Lf; split; [reflexivity | exact H10]|].
      exists rs. split; assumption.
    + destruct (proj1 (euclidean_loop_outcomes (correlated_parameters df) (found df) g))
        as [rs [Hrs [Hlen _]]]; [rewrite L3, Lf; split; [reflexivity | exact H10]|].
      exists rs. split; assumption.
  - intros H10. split.
    + apply (proj2 (euclidean_loop_outcomes (four_features df) (found df) g)).
      rewrite L4. lia.
    + apply (proj2 (euclidean_loop_outcomes (correlated_parameters df) (found df) g)).
      rewrite L3. lia.
Qed.

End Loops.

Lemma euclidean_loop_ten_tallies_witness :
  exists rs,
    euclidean_loop (RS := rotating) demo_features demo_targets 0%nat = Ok (rs, 0%nat) /\
    length rs = 10%nat /\
    (forall KNC r, In (KNC, r) rs ->
       metric (params KNC) = Euclidean /\
       (correct r + incorrect r = Z.of_nat ((length demo_features + 9) / 10))%Z).
Proof.
  apply (proj1 (euclidean_loop_ten_tallies (RS := rotating)
                  demo_features demo_targets 0%nat)).
  split; [reflexivity | simpl; lia].
Defined.

Lemma run_needs_ten_injections_witness :
  (exists rs, run_four_features (RS := rotating) scenario1_all scenario1_found 0%nat
              = Ok (rs, 0%nat) /\ length rs = 10%nat) /\
  (exists rs, run_correlated (RS := rotating) scenario1_all scenario1_found 0%nat
              = Ok (rs, 0%nat) /\ length rs = 10%nat).
Proof.
  apply (proj1 (run_needs_ten_injections (RS := rotating)
                  scenario1_all scenario1_found 0%nat)).
  simpl; lia.
Defined.

(** ** The same records in every loop *)

Section SameRecords.

Context {RS : RandomState}.

Lemma train_test_split_columns {R A B : Type} (f : R -> A) (h : R -> B)
    (rows train test : list R) (ind_train ind_test : list nat) (ii : Z) (g : rng_state) :
  shuffle_split (1 # 10) (Some ii) g (length rows) = ((ind_train, ind_test), g) ->
  np.take rows ind_train = Ok train ->
  np.take rows ind_test = Ok test ->
  train_test_split (map f rows) (map h rows) (1 # 10) (Some ii) g
  = Ok ((map f train, map f test, map h train, map h test), g).
Proof.
  intros Hsplit Htr Hte. unfold train_test_split.
  rewrite !length_map, Nat.eqb_refl. simpl negb. cbv iota.
  change (Qle_bool (1 # 10) 0 || Qle_bool 1 (1 # 10)) with false. cbv iota.
  rewrite Hsplit.
  rewrite (take_map f _ _ _ Htr), (take_map f _ _ _ Hte).
  rewrite (take_map h _ _ _ Htr), (take_map h _ _ _ Hte). reflexivity.
Qed.

(** X8.  For the same [ii], the four-feature loop and the three-feature
    loops train and test on the same records: for a labelled table of at
    least two rows there are two lists of labelled rows, together a
    rearrangement of the table, with a tenth of the rows (rounded up) in the
    test list, such that each split returns the respective columns of
    exactly these rows.  The positions a split selects depend on the number
    of rows and the seed, not on the columns. *)
Theorem loops_split_the_same_records (df : list (Relevant * bool)) (ii : Z)
    (g : rng_state) :
  (2 <= length df)%nat ->
  exists train test,
    trial_split (four_features df) (found df) ii g
      = Ok ((four_features train, four_features test, found train, found test), g) /\
    trial_split (correlated_parameters df) (found df) ii g
      = Ok ((correlated_parameters train, correlated_parameters test,
             found train, found test), g) /\
    Permutation (test ++ train) df /\
    length test = ((length df + 9) / 10)%nat.
Proof.
  intros _.
  destruct (trial_split_positions df df ii g eq_refl)
    as [it [ie [train [test [train' [test' H]]]]]].
  destruct H as [Hsplit [Hperm [Le [_ [Htr [Hte [_ [_ [_ [Ltest _]]]]]]]]]].
  exists train, test.
  split; [exact (train_test_split_columns _ _ df train test it ie ii g Hsplit Htr Hte)|].
  split; [exact (train_test_split_columns _ _ df train test it ie ii g Hsplit Htr Hte)|].
  split; [|congruence].
  rewrite (take_rows _ _ _ Htr), (take_rows _ _ _ Hte), <- flat_map_app.
  assert (Hall : flat_map (row_at df) (seq 0 (length df)) = df)
    by exact (rows_of_all_positions [] df).
  eapply Permutation_trans; [apply Permutation_flat_map; exact Hperm|].
  rewrite Hall. apply Permutation_refl.
Qed.

End SameRecords.
(** ** More on the tally (lines 400-407) *)

Lemma sum_perm {A : Type} (h : A -> bool) (l l' : list A) :
  Permutation l l' -> np.sum (map h l) = np.sum (map h l').
Proof.
  induction 1 as [|a l l' _ IH|a b l|l l' l'' _ IH1 _ IH2]; simpl.
  - reflexivity.
  - rewrite IH. reflexivity.
  - lia.
  - congruence.
Qed.

Lemma xor_negated (a y : list bool) :
  map (fun p => xorb (fst p) (snd p)) (combine a (map negb y))
  = map negb (map (fun p => xorb (fst p) (snd p)) (combine a y)).
Proof.
  revert y; induction a as [|x a IH]; intros [|t y]; try reflexivity.
  simpl. rewrite IH. destruct x, t; reflexivity.
Qed.

Lemma xor_self (a : list bool) :
  map (fun p => xorb (fst p) (snd p)) (combine a a) = map (fun _ => false) a.
Proof.
  induction a as [|x a IH]; [reflexivity|]. simpl. rewrite IH, xorb_nilpotent. reflexivity.
Qed.

Lemma sum_all_false {A : Type} (l : list A) : np.sum (map (fun _ => false) l) = 0%Z.
Proof. induction l as [|a l IH]; [reflexivity | simpl; exact IH]. Qed.

Section Tally.

Context {NS : NeighborSearch}.

Lemma evaluate_tally (KNC : Fitted) (X_test : list (list Q)) (y_test : list bool)
    (preds : list bool) :
  length X_test = length y_test ->
  predict KNC X_test = Ok preds ->
  evaluate KNC X_test y_test =
  Ok (tally (np.sum (np.logical_not (map (fun p => xorb (fst p) (snd p))
                                         (combine preds y_test))))
            (np.sum (map (fun p => xorb (fst p) (snd p)) (combine preds y_test)))).
Proof. intros Hlen Hp. exact (proj2 (evaluate_eq KNC X_test y_test preds Hlen Hp)). Qed.

Lemma evaluate_pairs (KNC : Fitted) (test : list (list Q * bool)) :
  test <> [] ->
  (n_neighbors (params KNC) <= Z.of_nat (length (fit_X KNC)))%Z ->
  evaluate KNC (map fst test) (map snd test) =
  Ok (tally (np.sum (map (fun t => negb (xorb (predict_row KNC (fst t)) (snd t))) test))
            (np.sum (map (fun t => xorb (predict_row KNC (fst t)) (snd t)) test))).
Proof.
  intros Hne Hk.
  assert (HX : map fst test <> []) by (destruct test; [contradiction | discriminate]).
  assert (Hlen : length (map fst test) = length (map snd test))
    by (rewrite !length_map; reflexivity).
  rewrite (evaluate_tally KNC _ _ _ Hlen (predict_total KNC _ HX Hk)).
  unfold np.logical_not. rewrite (map_map fst), combine_map_same, !map_map.
  reflexivity.
Qed.

(** X9.  The tally does not depend on the order of the test set: for two
    test sets of (row, label) pairs that are rearrangements of each other,
    the same classifier gives the same counts and percentages, or raises the
    same exception. *)
Theorem evaluate_order_independent (KNC : Fitted) (test1 test2 : list (list Q * bool)) :
  Permutation test1 test2 ->
  evaluate KNC (map fst test1) (map snd test1)
  = evaluate KNC (map fst test2) (map snd test2).
Proof.
  intros Hperm.
  destruct (Z.lt_ge_cases (Z.of_nat (length (fit_X KNC))) (n_neighbors (params KNC)))
    as [Hlt|Hge].
  - rewrite !evaluate_raises by (right; exact Hlt). reflexivity.
  - destruct test1 as [|t test1].
    + apply Permutation_nil in Hperm. subst. reflexivity.
    + assert (H2 : test2 <> []).
      { intros E. subst. apply Permutation_sym, Permutation_nil in Hperm. discriminate. }
      rewrite !evaluate_pairs by (try discriminate; try assumption; lia).
      rewrite (sum_perm _ _ _ Hperm).
      rewrite (sum_perm (fun t0 => xorb (predict_row KNC (fst t0)) (snd t0)) _ _ Hperm).
      reflexivity.
Qed.

(** X10.  Scoring a classifier against its own predictions: whenever
    [predict] returns for a test set, the tally of that test set against the
    predicted labels has no incorrect prediction, counts every row as
    correct, and reports 100 percent correct and 0 percent incorrect. *)
Theorem evaluate_all_correct (KNC : Fitted) (X_test : list (list Q)) (preds : list bool) :
  predict KNC X_test = Ok preds ->
  exists r pc pi,
    evaluate KNC X_test preds = Ok r /\
    incorrect r = 0%Z /\
    correct r = Z.of_nat (length X_test) /\
    percentage_correct r = np.Fin pc /\ pc == 100 /\
    percentage_incorrect r = np.Fin pi /\ pi == 0.
Proof.
  intros Hp. pose proof (predict_Ok_inv _ _ _ Hp) as [HX [_ Hpreds]].
  assert (Hlen : length X_test = length preds).
  { rewrite Hpreds, length_map. reflexivity. }
  rewrite (evaluate_tally KNC _ _ _ Hlen Hp).
  rewrite xor_self. unfold np.logical_not. rewrite map_map.
  rewrite sum_all_false.
  assert (Hsum : np.sum (map (fun _ => negb false) preds) = Z.of_nat (length X_test)).
  { rewrite Hlen. clear. induction preds as [|b l IH]; [reflexivity|].
    change (np.sum (map (fun _ : bool => negb false) (b :: l)))
      with (1 + np.sum (map (fun _ : bool => negb false) l))%Z.
    rewrite IH. simpl length. lia. }
  rewrite Hsum.
  assert (Hpos : (0 < Z.of_nat (length X_test))%Z).
  { destruct X_test; [contradiction | simpl length; lia]. }
  unfold tally, np.true_divide. rewrite Z.add_0_r.
  destruct (Z.eqb_spec (Z.of_nat (length X_test)) 0) as [E|_]; [lia|].
  assert (Hq : ~ inject_Z (Z.of_nat (length X_test)) == 0).
  { intros H. apply (proj1 (inject_Z_injective _ 0%Z)) in H. lia. }
  eexists; exists (100 * inject_Z (Z.of_nat (length X_test))
                   / inject_Z (Z.of_nat (length X_test))),
                  (100 * inject_Z 0 / inject_Z (Z.of_nat (length X_test))).
  split; [reflexivity|].
  cbn [correct incorrect percentage_correct percentage_incorrect].
  split; [reflexivity|]. split; [reflexivity|]. split; [reflexivity|].
  split; [field; exact Hq|]. split; [reflexivity|]. field; exact Hq.
Qed.

(** X11.  Negating every label swaps the tally: if the tally of a test set
    (as many labels as rows) is [r], the tally of the same rows against the
    negated labels has [r]'s incorrect count as its correct count, [r]'s
    correct count as its incorrect count, and the two percentages
    exchanged. *)
Theorem evaluate_negated_labels (KNC : Fitted) (X_test : list (list Q))
    (y_test : list bool) (r : EvaluationResult) :
  length X_test = length y_test ->
  evaluate KNC X_test y_test = Ok r ->
  exists r',
    evaluate KNC X_test (map negb y_test) = Ok r' /\
    correct r' = incorrect r /\
    incorrect r' = correct r /\
    percentage_correct r' = percentage_incorrect r /\
    percentage_incorrect r' = percentage_correct r.
Proof.
  intros Hlen Hev.
  destruct (predict KNC X_test) as [preds|e] eqn:Hp;
    [|unfold evaluate in Hev; rewrite Hp in Hev; discriminate].
  rewrite (evaluate_tally KNC _ _ _ Hlen Hp) in Hev. inversion Hev; subst r; clear Hev.
  assert (Hlen' : length X_test = length (map negb y_test))
    by (rewrite length_map; exact Hlen).
  rewrite (evaluate_tally KNC _ _ _ Hlen' Hp).
  rewrite xor_negated. unfold np.logical_not.
  set (mask := map (fun p => xorb (fst p) (snd p)) (combine preds y_test)).
  assert (Hinv : map negb (map negb mask) = mask).
  { rewrite map_map. rewrite <- (map_id mask) at 2. apply map_ext.
    intros b. apply negb_involutive. }
  rewrite Hinv. eexists. split; [reflexivity|].
  unfold tally. cbn [correct incorrect percentage_correct percentage_incorrect].
  rewrite (Z.add_comm (np.sum (map negb mask)) (np.sum mask)).
  repeat split.
Qed.

(** X12.  Labels and rows of different numbers.  A single label against a
    test set of any size does not raise: it is compared with every
    prediction, exactly as if it were repeated once per row.  A single test
    row against two or more labels does not raise either, and the counts
    then add up to the number of labels, not of rows.  Any other pair of
    different lengths raises [ValueError] after the prediction. *)
Theorem evaluate_mismatched_lengths (KNC : Fitted) (X_test : list (list Q))
    (y_test : list bool) (preds : list bool) :
  predict KNC X_test = Ok preds ->
  (forall t, y_test = [t] ->
     evaluate KNC X_test [t] = evaluate KNC X_test (repeat t (length X_test))) /\
  (length X_test = 1%nat -> (2 <= length y_test)%nat ->
     exists r, evaluate KNC X_test y_test = Ok r /\
               (correct r + incorrect r = Z.of_nat (length y_test))%Z) /\
  (length X_test <> length y_test -> length X_test <> 1%nat -> length y_test <> 1%nat ->
     evaluate KNC X_test y_test = Raise ValueError).
Proof.
  intros Hp. pose proof (predict_Ok_inv _ _ _ Hp) as [HX [_ Hpreds]].
  assert (Hlen : length preds = length X_test) by (rewrite Hpreds; apply length_map).
  unfold evaluate. rewrite Hp. cbn [bind].
  split; [|split].
  - intros t _. rewrite <- Hlen.
    assert (Hxor : np.logical_xor preds [t] = np.logical_xor preds (repeat t (length preds))).
    { rewrite (logical_xor_same_length preds (repeat t (length preds)))
        by (rewrite repeat_length; reflexivity).
      assert (Hrep : map (fun p => xorb (fst p) (snd p)) (combine preds (repeat t (length preds)))
                     = map (fun x => xorb x t) preds).
      { clear. induction preds as [|b l IH]; [reflexivity|]. simpl. rewrite IH. reflexivity. }
      rewrite Hrep. unfold np.logical_xor.
      destruct preds as [|b [|b' l]]; reflexivity. }
    rewrite Hxor. reflexivity.
  - intros H1 H2. rewrite H1 in Hlen.
    destruct preds as [|p [|p' l]]; try discriminate.
    unfold np.logical_xor.
    destruct (Nat.eqb_spec (length [p]) (length y_test)) as [E|_]; [simpl in E; lia|].
    cbn [bind]. eexists. split; [reflexivity|].
    cbn [correct incorrect]. rewrite sum_logical_not, length_map. reflexivity.
  - intros Hne HX1 Hy1. rewrite <- Hlen in Hne, HX1.
    unfold np.logical_xor.
    destruct (Nat.eqb_spec (length preds) (length y_test)) as [E|_]; [contradiction|].
    destruct preds as [|p [|p' l]]; [| simpl in HX1; lia |].
    + destruct y_test as [|t [|t' y]]; try reflexivity. simpl in Hy1; lia.
    + destruct y_test as [|t [|t' y]]; try reflexivity. simpl in Hy1; lia.
Qed.

End Tally.

Lemma evaluate_order_independent_witness :
  evaluate scenario2 (map fst [([1], true); ([9], true)]) (map snd [([1], true); ([9], true)])
  = evaluate scenario2 (map fst [([9], true); ([1], true)])
                       (map snd [([9], true); ([1], true)]).
Proof.
  apply (evaluate_order_independent scenario2
           [([1], true); ([9], true)] [([9], true); ([1], true)]).
  apply perm_swap.
Defined.

Lemma evaluate_all_correct_witness :
  exists r pc pi,
    evaluate scenario2 [[1]; [9]] [true; false] = Ok r /\
    incorrect r = 0%Z /\
    correct r = Z.of_nat (length [[1]; [9]]) /\
    percentage_correct r = np.Fin pc /\ pc == 100 /\
    percentage_incorrect r = np.Fin pi /\ pi == 0.
Proof.
  apply (evaluate_all_correct scenario2 [[1]; [9]] [true; false]).
  vm_compute. reflexivity.
Defined.

Lemma evaluate_negated_labels_witness :
  exists r',
    evaluate scenario2 [[1]; [9]; [2]] (map negb [true; true; true]) = Ok r' /\
    correct r' = incorrect (tally 2 1) /\
    incorrect r' = correct (tally 2 1) /\
    percentage_correct r' = percentage_incorrect (tally 2 1) /\
    percentage_incorrect r' = percentage_correct (tally 2 1).
Proof.
  apply (evaluate_negated_labels scenario2 [[1]; [9]; [2]] [true; true; true] (tally 2 1)).
  - reflexivity.
  - vm_compute. reflexivity.
Defined.

Lemma evaluate_mismatched_lengths_witness :
  (forall t, [true] = [t] ->
     evaluate scenario2 [[1]; [9]] [t]
     = evaluate scenario2 [[1]; [9]] (repeat t (length [[1]; [9]]))) /\
  (length [[1]; [9]] = 1%nat -> (2 <= length [true])%nat ->
     exists r, evaluate scenario2 [[1]; [9]] [true] = Ok r /\
               (correct r + incorrect r = Z.of_nat (length [true]))%Z) /\
  (length [[1]; [9]] <> length [true] -> length [[1]; [9]] <> 1%nat ->
   length [true] <> 1%nat ->
     evaluate scenario2 [[1]; [9]] [true] = Raise ValueError).
Proof.
  apply (evaluate_mismatched_lengths scenario2 [[1]; [9]] [true] [true; false]).
  vm_compute. reflexivity.
Defined.

(** Three labels against two test rows: the comparison raises. *)
Example evaluate_three_labels_two_rows :
  evaluate scenario2 [[1]; [9]] [true; false; true] = Raise ValueError.
Proof. vm_compute. reflexivity. Qed.

(** ** More on prediction (lines 289-342) *)

Lemma existsb_In_true (y : list bool) : existsb (fun b => b) y = true <-> In true y.
Proof.
  rewrite existsb_exists. split.
  - intros [b [Hin Hb]]. subst. exact Hin.
  - intros Hin. exists true. split; [exact Hin | reflexivity].
Qed.

Lemma existsb_In_false (y : list bool) : existsb negb y = true <-> In false y.
Proof.
  rewrite existsb_exists. split.
  - intros [b [Hin Hb]]. destruct b; [discriminate | exact Hin].
  - intros Hin. exists false. split; [exact Hin | reflexivity].
Qed.

Lemma unique_single_class (y : list bool) :
  ~ (In true y /\ In false y) -> (length (unique y) <= 1)%nat.
Proof.
  intros Hnot. unfold unique.
  destruct (existsb negb y) eqn:Hf, (existsb (fun b => b) y) eqn:Ht; simpl; try lia.
  exfalso. apply Hnot. split; [apply existsb_In_true, Ht | apply existsb_In_false, Hf].
Qed.

Lemma unique_constant (y : list bool) (b : bool) :
  y <> [] -> (forall c, In c y -> c = b) -> unique y = [b].
Proof.
  intros Hne Hall. unfold unique.
  assert (Hb : In b y).
  { destruct y as [|c y]; [contradiction|]. left. apply Hall. left; reflexivity. }
  destruct (existsb negb y) eqn:Hf, (existsb (fun c => c) y) eqn:Ht.
  - apply existsb_In_false, Hall in Hf. apply existsb_In_true, Hall in Ht. congruence.
  - apply existsb_In_false, Hall in Hf. subst. reflexivity.
  - apply existsb_In_true, Hall in Ht. subst. reflexivity.
  - destruct b.
    + apply existsb_In_true in Hb. congruence.
    + apply existsb_In_false in Hb. congruence.
Qed.

Lemma count_occ_all (l : list bool) (b : bool) :
  (forall c, In c l -> c = b) -> count_occ bool_dec l b = length l.
Proof.
  induction l as [|c l IH]; intros Hall; [reflexivity|].
  rewrite (Hall c (or_introl eq_refl)). rewrite count_occ_cons_eq by reflexivity.
  simpl. f_equal. apply IH. intros d Hd. apply Hall. right; exact Hd.
Qed.

(** The votes over the classes add up to the number of neighbours. *)
Lemma votes_total (y labels : list bool) :
  (forall c, In c labels -> In c y) ->
  fold_right Nat.add 0%nat (map (count_occ bool_dec labels) (unique y)) = length labels.
Proof.
  intros Hin. unfold unique.
  destruct (existsb negb y) eqn:Hf, (existsb (fun c => c) y) eqn:Ht; simpl.
  - rewrite Nat.add_0_r. apply count_occ_bool.
  - rewrite Nat.add_0_r. apply count_occ_all. intros c Hc.
    destruct c; [|reflexivity]. apply Hin, existsb_In_true in Hc. congruence.
  - rewrite Nat.add_0_r. apply count_occ_all. intros c Hc.
    destruct c; [reflexivity|]. apply Hin, existsb_In_false in Hc. congruence.
  - destruct labels as [|c labels]; [reflexivity|]. exfalso.
    specialize (Hin c (or_introl eq_refl)).
    destruct c; [apply existsb_In_true in Hin | apply existsb_In_false in Hin]; congruence.
Qed.

Lemma proba_sum (v : list nat) (K : Q) :
  ~ K == 0 ->
  fold_right Qplus 0 (map (fun c => inject_Z (Z.of_nat c) / K) v)
  == inject_Z (Z.of_nat (fold_right Nat.add 0%nat v)) / K.
Proof.
  intros HK. induction v as [|c v IH].
  - simpl. field. exact HK.
  - cbn [map fold_right]. rewrite IH, Nat2Z.inj_add, inject_Z_plus. field. exact HK.
Qed.

Lemma le_total_votes (v : list nat) (c : nat) :
  In c v -> (c <= fold_right Nat.add 0%nat v)%nat.
Proof.
  induction v as [|d v IH]; intros Hin; [contradiction|].
  destruct Hin as [<- | Hin]; simpl; [lia|].
  specialize (IH Hin). lia.
Qed.

Section PredictCells.

Context {NS : NeighborSearch}.

Lemma neighbor_labels_in (KNC0 : KNeighborsClassifier) (X : list (list Q)) (y : list bool)
    (x : list Q) :
  length X = length y ->
  (n_neighbors KNC0 <= Z.of_nat (length X))%Z ->
  let nbrs := neigh_ind (metric KNC0) X (Z.to_nat (n_neighbors KNC0)) x in
  length nbrs = Z.to_nat (n_neighbors KNC0) /\
  forall c, In c (map (fun i => nth i y false) nbrs) -> In c y.
Proof.
  intros Hlen Hk nbrs.
  destruct (neigh_ind_rows (metric KNC0) X (Z.to_nat (n_neighbors KNC0)) x ltac:(lia))
    as [Hn [_ Hbound]].
  split; [exact Hn|].
  intros c Hc. apply in_map_iff in Hc as [i [<- Hi]].
  apply nth_In. rewrite <- Hlen. apply Hbound, Hi.
Qed.

(** X13.  What line 342 returns for a classifier that [fit] returned:
    [ValueError] when there are fewer training rows than [n_neighbors]
    (raised by [predict], before any probability is computed); otherwise
    [IndexError] when the training labels are all [true] or all [false]
    (there is no second column to read); otherwise one label and one
    probability. *)
Theorem predict_and_probability_outcomes (KNC0 : KNeighborsClassifier)
    (X : list (list Q)) (y : list bool) (KNC : Fitted) (x : list Q) :
  fit KNC0 X y = Ok KNC ->
  ((Z.of_nat (length X) < n_neighbors KNC0)%Z ->
   predict_and_probability KNC x = Raise ValueError) /\
  ((n_neighbors KNC0 <= Z.of_nat (length X))%Z ->
   (In true y /\ In false y ->
    exists b p, predict_and_probability KNC x = Ok ([b], [p])) /\
   (~ (In true y /\ In false y) ->
    predict_and_probability KNC x = Raise IndexError)).
Proof.
  intros Hfit. apply fit_Ok_inv in Hfit as [Hlen [HX [Hpos ->]]].
  set (KNC := {| params := KNC0; fit_X := X; fit_y := y; classes_ := unique y |}).
  unfold predict_and_probability. split.
  - intros Hlt. unfold predict, kneighbors. cbn [length Nat.eqb fit_X params KNC].
    destruct (Z.ltb_spec (Z.of_nat (length X)) (n_neighbors KNC0)); [reflexivity | lia].
  - intros Hk.
    rewrite predict_total by (try discriminate; exact Hk).
    rewrite predict_proba_total by (try discriminate; exact Hk).
    cbn [bind map classes_ KNC]. unfold np.T_index.
    split.
    + intros [Ht Hf]. rewrite (unique_both y Ht Hf). cbn [length Nat.ltb Nat.leb bind map].
      eexists; eexists; reflexivity.
    + intros Hnot. pose proof (unique_single_class y Hnot) as Hone.
      destruct (Nat.ltb_spec 1 (length (unique y))); [lia | reflexivity].
Qed.

(** X14.  With one neighbour and the Euclidean metric the prediction is
    the label of the nearest training row, on whole-number features of
    magnitude at most 1024 (where the binary64 distances the library ranks
    by are exact): if one training row is strictly nearer to the query than
    every other, [predict] returns the label stored with that row, whichever
    neighbour search is used and whichever classes occur among the training
    labels.  (On larger numbers the binary64 distances of two rows can
    coincide although one row is nearer.) *)
Theorem one_neighbour_predicts_nearest_label (X : list (list Q))
    (y : list bool) (KNC : Fitted) (q : list Q) (i : nat) :
  fit {| n_neighbors := 1; metric := Euclidean |} X y = Ok KNC ->
  exact_rows X q = true ->
  (i < length X)%nat ->
  (forall j, (j < length X)%nat -> j <> i ->
             dist2 Euclidean (nth i X []) q < dist2 Euclidean (nth j X []) q) ->
  predict KNC [q] = Ok [nth i y false].
Proof.
  intros Hfit Hex Hi Hnear. apply fit_Ok_inv in Hfit as [Hlen [HX [_ ->]]].
  assert (Hk : (1 <= Z.of_nat (length X))%Z) by lia.
  rewrite predict_total by (try discriminate; exact Hk).
  cbn [map]. f_equal. f_equal.
  unfold predict_row, votes, neighbor_labels. cbn [params fit_X fit_y classes_ n_neighbors metric].
  change (Z.to_nat 1) with 1%nat.
  destruct (nearest_singleton _ _ _ _ (neigh_ind_nearest X 1 q ltac:(lia) Hex))
    as [i' [-> [Hi' Hle]]].
  assert (i' = i) as ->.
  { destruct (Nat.eq_dec i' i) as [E|Hne]; [exact E|]. exfalso.
    specialize (Hle i Hi (not_eq_sym Hne)). specialize (Hnear i' Hi' Hne).
    exact (Qlt_not_le _ _ Hnear Hle). }
  assert (Hb : In (nth i y false) y) by (apply nth_In; lia).
  cbn [map]. unfold unique.
  destruct (nth i y false) eqn:Eb;
    [apply existsb_In_true in Hb | apply existsb_In_false in Hb]; rewrite Hb;
    [destruct (existsb negb y) | destruct (existsb (fun b => b) y)]; reflexivity.
Qed.

(** X15.  A classifier fitted on labels that are all equal predicts that
    label for every query, provided it holds at least [n_neighbors] training
    rows. *)
Theorem single_class_predicts_that_class (KNC0 : KNeighborsClassifier)
    (X : list (list Q)) (y : list bool) (KNC : Fitted) (b : bool)
    (queries : list (list Q)) :
  fit KNC0 X y = Ok KNC ->
  (n_neighbors KNC0 <= Z.of_nat (length X))%Z ->
  (forall c, In c y -> c = b) ->
  queries <> [] ->
  predict KNC queries = Ok (map (fun _ => b) queries).
Proof.
  intros Hfit Hk Hall Hq. apply fit_Ok_inv in Hfit as [Hlen [HX [_ ->]]].
  rewrite predict_total by (try assumption; exact Hk).
  f_equal. apply map_ext. intros x.
  unfold predict_row, votes. cbn [params fit_X fit_y classes_].
  assert (Hy : y <> []) by (destruct y; [destruct X; [contradiction | discriminate] | discriminate]).
  rewrite (unique_constant y b Hy Hall). reflexivity.
Qed.

(** X16.  [predict_proba] returns a probability distribution per query: for
    a classifier that [fit] returned with at least [n_neighbors] training
    rows and a non-empty batch of queries, there is one row per query, one
    entry per class, every entry lies between 0 and 1, and the entries of a
    row add up to 1. *)
Theorem predict_proba_rows_sum_to_one (KNC0 : KNeighborsClassifier)
    (X : list (list Q)) (y : list bool) (KNC : Fitted) (queries : list (list Q)) :
  fit KNC0 X y = Ok KNC ->
  (n_neighbors KNC0 <= Z.of_nat (length X))%Z ->
  queries <> [] ->
  exists rows,
    predict_proba KNC queries = Ok rows /\
    length rows = length queries /\
    forall row, In row rows ->
      length row = length (classes_ KNC) /\
      fold_right Qplus 0 row == 1 /\
      forall p, In p row -> 0 <= p /\ p <= 1.
Proof.
  intros Hfit Hk Hq. apply fit_Ok_inv in Hfit as [Hlen [HX [Hpos ->]]].
  set (KNC := {| params := KNC0; fit_X := X; fit_y := y; classes_ := unique y |}).
  exists (map (proba_row KNC) queries).
  split; [apply predict_proba_total; [exact Hq | exact Hk]|].
  split; [apply length_map|].
  intros row Hrow. apply in_map_iff in Hrow as [x [<- _]].
  unfold proba_row, votes, neighbor_labels. cbn [params fit_X fit_y classes_ KNC].
  destruct (neighbor_labels_in KNC0 X y x Hlen Hk) as [Hn Hin].
  set (labels := map (fun i => nth i y false)
                     (neigh_ind (metric KNC0) X (Z.to_nat (n_neighbors KNC0)) x)) in *.
  assert (Hlab : length labels = Z.to_nat (n_neighbors KNC0)).
  { unfold labels. rewrite length_map. exact Hn. }
  pose proof (votes_total y labels Hin) as Htot.
  set (v := map (count_occ bool_dec labels) (unique y)) in *.
  rewrite Htot.
  destruct (Nat.eqb_spec (length labels) 0) as [E|_]; [lia|].
  assert (HK : 0 < inject_Z (Z.of_nat (length labels))).
  { rewrite <- (Zlt_Qlt 0). lia. }
  assert (HK0 : ~ inject_Z (Z.of_nat (length labels)) == 0).
  { intros E. rewrite E in HK. exact (Qlt_irrefl 0 HK). }
  split; [unfold v; rewrite !length_map; reflexivity|].
  split.
  - rewrite (proba_sum v _ HK0), Htot. field. exact HK0.
  - intros p Hp. apply in_map_iff in Hp as [c [<- Hc]].
    pose proof (le_total_votes v c Hc) as Hle. rewrite Htot in Hle.
    split.
    + apply Qle_shift_div_l; [exact HK|]. rewrite Qmult_0_l.
      rewrite <- (Zle_Qle 0). lia.
    + apply Qle_shift_div_r; [exact HK|]. rewrite Qmult_1_l.
      rewrite <- Zle_Qle. lia.
Qed.

End PredictCells.

Section OddNeighbours.

Context {NS : NeighborSearch}.

(** X17.  An odd number of neighbours (the notebook takes nine: "one more to
    break a tie") leaves no tie to break: for a classifier that [fit]
    returned with an odd [n_neighbors] not above the number of training
    rows, the predicted label is carried by more than half of the
    [n_neighbors] distinct training rows the neighbour search returns for
    the query, whatever classes occur among the training labels. *)
Theorem odd_neighbours_strict_majority (KNC0 : KNeighborsClassifier)
    (X : list (list Q)) (y : list bool) (KNC : Fitted) (q : list Q) :
  fit KNC0 X y = Ok KNC ->
  (n_neighbors KNC0 <= Z.of_nat (length X))%Z ->
  Z.odd (n_neighbors KNC0) = true ->
  exists nbrs b,
    nbrs = neigh_ind (metric KNC0) X (Z.to_nat (n_neighbors KNC0)) q /\
    selected X (Z.to_nat (n_neighbors KNC0)) nbrs /\
    predict KNC [q] = Ok [b] /\
    (n_neighbors KNC0
     < 2 * Z.of_nat (count_occ bool_dec (map (fun i => nth i y false) nbrs) b))%Z.
Proof.
  intros Hfit Hk Hodd. apply fit_Ok_inv in Hfit as [Hlen [HX [Hpos ->]]].
  set (nbrs := neigh_ind (metric KNC0) X (Z.to_nat (n_neighbors KNC0)) q).
  pose proof (neigh_ind_rows (metric KNC0) X (Z.to_nat (n_neighbors KNC0)) q
                ltac:(lia)) as Hsel. fold nbrs in Hsel.
  destruct (neighbor_labels_in KNC0 X y q Hlen Hk) as [Hn Hin]. fold nbrs in Hn, Hin.
  set (labels := map (fun i => nth i y false) nbrs) in *.
  assert (Hlab : Z.of_nat (length labels) = n_neighbors KNC0).
  { unfold labels. rewrite length_map, Hn. lia. }
  pose proof (count_occ_bool labels) as Hcount.
  apply Z.odd_spec in Hodd. destruct Hodd as [half Hhalf].
  exists nbrs. rewrite predict_total by (try discriminate; exact Hk).
  cbn [map]. unfold predict_row, votes, neighbor_labels.
  cbn [params fit_X fit_y classes_]. fold nbrs. fold labels.
  unfold unique.
  destruct (existsb negb y) eqn:Hf, (existsb (fun c => c) y) eqn:Ht; cbn [app map mode argmax_from].
  - destruct (Nat.ltb_spec (count_occ bool_dec labels false) (count_occ bool_dec labels true)).
    + exists true. split; [reflexivity|]. split; [exact Hsel|]. split; [reflexivity | lia].
    + exists false. split; [reflexivity|]. split; [exact Hsel|]. split; [reflexivity | lia].
  - exists false. split; [reflexivity|]. split; [exact Hsel|]. split; [reflexivity|].
    rewrite count_occ_all; [lia|]. intros c Hc.
    destruct c; [|reflexivity]. apply Hin, existsb_In_true in Hc. congruence.
  - exists true. split; [reflexivity|]. split; [exact Hsel|]. split; [reflexivity|].
    rewrite count_occ_all; [lia|]. intros c Hc.
    destruct c; [reflexivity|]. apply Hin, existsb_In_false in Hc. congruence.
  - exfalso. destruct y as [|c y]; [destruct X; [contradiction | discriminate]|].
    destruct c; simpl in Hf, Ht; discriminate.
Qed.

End OddNeighbours.

Lemma predict_and_probability_outcomes_witness :
  ((Z.of_nat (length [[0]; [10]; [2]]) < 3)%Z ->
   predict_and_probability three_rows [1] = Raise ValueError) /\
  ((3 <= Z.of_nat (length [[0]; [10]; [2]]))%Z ->
   (In true [true; false; true] /\ In false [true; false; true] ->
    exists b p, predict_and_probability three_rows [1] = Ok ([b], [p])) /\
   (~ (In true [true; false; true] /\ In false [true; false; true]) ->
    predict_and_probability three_rows [1] = Raise IndexError)).
Proof.
  apply (predict_and_probability_outcomes {| n_neighbors := 3; metric := Euclidean |}
           [[0]; [10]; [2]] [true; false; true] three_rows [1]).
  reflexivity.
Defined.

Lemma one_neighbour_predicts_nearest_label_witness :
  predict scenario2 [[9]] = Ok [nth 1 [true; false] false].
Proof.
  apply (one_neighbour_predicts_nearest_label [[0]; [10]] [true; false]
           scenario2 [9] 1).
  - reflexivity.
  - reflexivity.
  - simpl; lia.
  - intros j Hj Hne. destruct j as [|[|j]]; [| contradiction | simpl in Hj; lia].
    vm_compute. reflexivity.
Defined.

Lemma single_class_predicts_that_class_witness :
  predict {| params := {| n_neighbors := 2; metric := Euclidean |};
             fit_X := [[0]; [10]; [2]]; fit_y := [true; true; true];
             classes_ := [true] |} [[1]; [7]]
  = Ok (map (fun _ => true) [[1]; [7]]).
Proof.
  apply (single_class_predicts_that_class {| n_neighbors := 2; metric := Euclidean |}
           [[0]; [10]; [2]] [true; true; true]).
  - reflexivity.
  - simpl; lia.
  - intros c Hc. simpl in Hc. intuition.
  - discriminate.
Defined.

Lemma predict_proba_rows_sum_to_one_witness :
  exists rows,
    predict_proba three_rows [[1]; [7]] = Ok rows /\
    length rows = length [[1]; [7]] /\
    forall row, In row rows ->
      length row = length (classes_ three_rows) /\
      fold_right Qplus 0 row == 1 /\
      forall p, In p row -> 0 <= p /\ p <= 1.
Proof.
  apply (predict_proba_rows_sum_to_one {| n_neighbors := 3; metric := Euclidean |}
           [[0]; [10]; [2]] [true; false; true] three_rows [[1]; [7]]).
  - reflexivity.
  - simpl; lia.
  - discriminate.
Defined.

Lemma odd_neighbours_strict_majority_witness :
  exists nbrs b,
    nbrs = neigh_ind Euclidean [[0]; [10]; [2]] (Z.to_nat 3) [1] /\
    selected [[0]; [10]; [2]] (Z.to_nat 3) nbrs /\
    predict three_rows [[1]] = Ok [b] /\
    (3 < 2 * Z.of_nat (count_occ bool_dec
                         (map (fun i => nth i [true; false; true] false) nbrs) b))%Z.
Proof.
  apply (odd_neighbours_strict_majority {| n_neighbors := 3; metric := Euclidean |}
           [[0]; [10]; [2]] [true; false; true] three_rows [1]).
  - reflexivity.
  - simpl; lia.
  - reflexivity.
Defined.

Lemma binary64_percentages_sum_witness :
  sum_is_100 (Z.of_nat 2) (Z.of_nat 1) = true.
Proof. apply (binary64_percentages_sum 2 1). lia. Defined.

Lemma loops_split_the_same_records_witness :
  exists train test,
    trial_split (RS := rotating)
      (four_features (combine (df_all scenario1_all) (found_mask scenario1_all scenario1_found)))
      (found (combine (df_all scenario1_all) (found_mask scenario1_all scenario1_found)))
      2 0%nat
      = Ok ((four_features train, four_features test, found train, found test), 0%nat) /\
    trial_split (RS := rotating)
      (correlated_parameters
         (combine (df_all scenario1_all) (found_mask scenario1_all scenario1_found)))
      (found (combine (df_all scenario1_all) (found_mask scenario1_all scenario1_found)))
      2 0%nat
      = Ok ((correlated_parameters train, correlated_parameters test,
             found train, found test), 0%nat) /\
    Permutation (test ++ train)
      (combine (df_all scenario1_all) (found_mask scenario1_all scenario1_found)) /\
    length test
    = ((length (combine (df_all scenario1_all)
                        (found_mask scenario1_all scenario1_found)) + 9) / 10)%nat.
Proof.
  apply (loops_split_the_same_records (RS := rotating)
           (combine (df_all scenario1_all) (found_mask scenario1_all scenario1_found))
           2 0%nat).
  simpl; lia.
Defined.
